(** * The dataset splitter of the training notebook

    A shallow embedding of [split_data] (cell 3 of
    [model_training_notebook/model.ipynb]) and of the two places where the
    notebook writes the trainability of the backbone and sizes the output
    layer, together with the properties the specification states of them.

    The notebook is a sequence of calls into [os], [shutil], scikit-learn
    and Keras.  Each library routine the splitter calls is modelled here as
    a function on an explicit world: a path-indexed file system, the
    process-wide numpy generator, the console, and a ghost trace.

    What the model leaves out: links and relative components in paths
    (a path is the list of its components), write and directory
    permissions (a file is readable or not), and floating point (the
    split ratio is a rational).  The order in which a directory is listed
    is a fixed function of its entries. *)

From Stdlib Require Import QArith Qround.
From stdpp Require Import gmap strings list fin_maps pretty sorting.

Local Close Scope Q_scope.
Local Open Scope nat_scope.

(** ** Paths and file-system nodes *)

(** A path is the sequence of its components; ['data'] is [["data"]] and
    the empty sequence is the working directory. *)
Abbreviation path := (list string).

(** [os.path.join(dir, name)] for a single component [name], as returned by
    [os.listdir]: such a name is never empty and holds no separator. *)
Definition os_path_join (dir : path) (name : string) : path := dir ++ [name].

Definition basename (p : path) : string := List.last p EmptyString.
Definition dirname (p : path) : path := removelast p.

(** A regular file carries its bytes and whether the process may read it. *)
Inductive node :=
  | Dir
  | File (readable : bool) (data : list Byte.byte).

Abbreviation filesystem := (gmap path node).

(** The working directory always exists. *)
Definition stat (m : filesystem) (p : path) : option node :=
  match p with
  | [] => Some Dir
  | _ => m !! p
  end.

Definition is_dir_node (o : option node) : bool :=
  match o with Some Dir => true | _ => false end.

(** [child_of dir p] is the name [n] when [p] is [dir/n]. *)
Fixpoint child_of (dir p : path) : option string :=
  match dir, p with
  | [], [name] => Some name
  | d :: dir', c :: p' => if decide (d = c) then child_of dir' p' else None
  | _, _ => None
  end.

(** A directory is enumerated in an order the program does not control;
    it is fixed here as a function of the set of entries. *)
Definition name_le (x y : string) : Prop := (encode x ≤ encode y)%positive.

#[global] Instance name_le_dec x y : Decision (name_le x y).
Proof. unfold name_le. apply _. Defined.

(** The entries of a directory: the names of the paths one component below. *)
Definition children (m : filesystem) (dir : path) : list string :=
  merge_sort name_le (omap (child_of dir) (map_to_list m).*1).

(** ** Exceptions, the ghost trace and the world *)

Inductive exn :=
  | FileNotFoundError
  | NotADirectoryError
  | IsADirectoryError
  | FileExistsError
  | PermissionError
  | SameFileError
  | ValueError
  | IndexError.

(** Every exception of the file-system routines derives from [OSError]. *)
Definition is_OSError (e : exn) : bool :=
  match e with
  | ValueError | IndexError => false
  | _ => true
  end.

(** The two parts of the partition. *)
Inductive subset := Train | Val.

(** Ghost events record what a run did; the program never reads them.
    [EvSplit] holds the local variables of one loop iteration right after
    the split, [EvCopy] one completed copy with the path it wrote. *)
Inductive event :=
  | EvSplit (class_name : string) (images train_images val_images : list string)
  | EvCopy (s : subset) (src dst : path).

#[global] Instance subset_eq_dec : EqDecision subset.
Proof. solve_decision. Defined.

(** The interface of [numpy.random.RandomState] the splitter relies on:
    seeding, and drawing a permutation of [range(n)]. *)
Class RandomState := {
  rng : Type;
  seed_rng : Z → rng;
  rng_permutation : rng → nat → list nat * rng;
  rng_permutation_perm g n : (rng_permutation g n).1 ≡ₚ seq 0 n
}.

Inductive outcome (A : Type) :=
  | Returned (a : A)
  | Raised (e : exn).
Arguments Returned {A} a.
Arguments Raised {A} e.

Section Splitter.
Context `{RandomState}.

Record world := World {
  fs : filesystem;
  np_random : rng;
  stdout : list string;
  trace : list event
}.

Definition set_fs (m : filesystem) (w : world) : world :=
  World m (np_random w) (stdout w) (trace w).
Definition set_np_random (g : rng) (w : world) : world :=
  World (fs w) g (stdout w) (trace w).

(** A computation runs on a world and leaves a world behind, also when it
    raises: nothing is rolled back. *)
Definition M (A : Type) : Type := world → outcome A * world.

Definition ret {A} (a : A) : M A := λ w, (Returned a, w).
Definition raise {A} (e : exn) : M A := λ w, (Raised e, w).
Definition bind {A B} (m : M A) (f : A → M B) : M B := λ w,
  match m w with
  | (Returned a, w') => f a w'
  | (Raised e, w') => (Raised e, w')
  end.
Definition try_except {A} (m : M A) (handler : exn → M A) : M A := λ w,
  match m w with
  | (Returned a, w') => (Returned a, w')
  | (Raised e, w') => handler e w'
  end.

Notation "x <- m ;; k" := (bind m (λ x, k))
  (at level 100, m at next level, k at level 200, right associativity).
Notation "m ;;; k" := (bind m (λ _, k))
  (at level 100, k at level 200, right associativity).

(** [for x in xs: body(x)] *)
Fixpoint for_each {A} (xs : list A) (body : A → M unit) : M unit :=
  match xs with
  | [] => ret tt
  | x :: xs' => body x ;;; for_each xs' body
  end.

(** [[f(x) for x in xs]] *)
Fixpoint map_M {A B} (f : A → M B) (xs : list A) : M (list B) :=
  match xs with
  | [] => ret []
  | x :: xs' => y <- f x ;; ys <- map_M f xs' ;; ret (y :: ys)
  end.

Definition ghost (ev : event) : M unit := λ w,
  (Returned tt, World (fs w) (np_random w) (stdout w) (trace w ++ [ev])).

Definition print (line : string) : M unit := λ w,
  (Returned tt, World (fs w) (np_random w) (stdout w ++ [line]) (trace w)).

(** ** The [os] and [shutil] routines *)

Definition os_listdir (dir : path) : M (list string) := λ w,
  match stat (fs w) dir with
  | None => (Raised FileNotFoundError, w)
  | Some (File _ _) => (Raised NotADirectoryError, w)
  | Some Dir => (Returned (children (fs w) dir), w)
  end.

Definition os_path_isdir (p : path) : M bool := λ w,
  (Returned (is_dir_node (stat (fs w) p)), w).

Definition os_path_exists (p : path) : M bool := λ w,
  (Returned (bool_decide (is_Some (stat (fs w) p))), w).

Definition os_mkdir (name : path) : M unit := λ w,
  match stat (fs w) (dirname name) with
  | None => (Raised FileNotFoundError, w)
  | Some (File _ _) => (Raised NotADirectoryError, w)
  | Some Dir =>
      match stat (fs w) name with
      | Some _ => (Raised FileExistsError, w)
      | None => (Returned tt, set_fs (<[name := Dir]> (fs w)) w)
      end
  end.

(** [os.makedirs(name, exist_ok=...)], by recursion on the reversed path:
    create the missing parent first, then the leaf, and accept a leaf that
    is already a directory when [exist_ok] is set. *)
Fixpoint makedirs_rev (rname : list string) (exist_ok : bool) : M unit :=
  (match rname with
   | _ :: (_ :: _) as rhead =>
       head_exists <- os_path_exists (rev rhead) ;;
       if head_exists then ret tt
       else try_except (makedirs_rev rhead exist_ok)
              (λ e, match e with FileExistsError => ret tt | _ => raise e end)
   | _ => ret tt
   end) ;;;
  try_except (os_mkdir (rev rname))
    (λ e, if is_OSError e then
            leaf_is_dir <- os_path_isdir (rev rname) ;;
            if negb exist_ok || negb leaf_is_dir then raise e else ret tt
          else raise e).

Definition os_makedirs (name : path) (exist_ok : bool) : M unit :=
  makedirs_rev (rev name) exist_ok.

(** [shutil.copy(src, dst)]: a directory destination receives the file
    under the source's base name; the bytes and the permission bits of the
    source are written; the path written is returned. *)
Definition shutil_copy (src dst : path) : M path := λ w,
  let dst := if is_dir_node (stat (fs w) dst)
             then os_path_join dst (basename src) else dst in
  match stat (fs w) src with
  | None => (Raised FileNotFoundError, w)
  | Some Dir =>
      if decide (src = dst) then (Raised SameFileError, w)
      else (Raised IsADirectoryError, w)
  | Some (File readable data) =>
      if decide (src = dst) then (Raised SameFileError, w)
      else if negb readable then (Raised PermissionError, w)
      else match stat (fs w) dst with
           | Some Dir => (Raised IsADirectoryError, w)
           | _ =>
               match stat (fs w) (dirname dst) with
               | None => (Raised FileNotFoundError, w)
               | Some (File _ _) => (Raised NotADirectoryError, w)
               | Some Dir =>
                   (Returned dst, set_fs (<[dst := File readable data]> (fs w)) w)
               end
           end
  end.

(** [open(p, 'rb').read()], or [None] where that raises. *)
Definition read_bytes (m : filesystem) (p : path) : option (list Byte.byte) :=
  match stat m p with
  | Some (File true data) => Some data
  | _ => None
  end.

(** ** [str.endswith] with a tuple of suffixes *)

Definition endswith (s suffix : string) : bool :=
  let n := String.length s in
  let m := String.length suffix in
  (m <=? n) && String.eqb (String.substring (n - m) m s) suffix.

Definition endswith_any (s : string) (suffixes : list string) : bool :=
  existsb (endswith s) suffixes.

Definition image_extensions : list string := [".jpg"; ".jpeg"; ".png"]%string.

Definition is_image (img : string) : bool := endswith_any img image_extensions.

(** ** scikit-learn's [train_test_split] *)

(** [_validate_shuffle_split] for a float [test_size] and no [train_size]:
    the test share is rounded up, the rest trains, and an empty training
    set is refused.  The ratio is an exact rational here, so the product
    [test_size * n_samples] carries no floating-point error. *)
Definition validate_shuffle_split (n_samples : nat) (test_size : Q)
    : exn + nat * nat :=
  if Qle_bool test_size 0 || Qle_bool 1 test_size then inl ValueError
  else
    let n_test := Z.to_nat (Qceiling (test_size * inject_Z (Z.of_nat n_samples))) in
    let n_train := n_samples - n_test in
    if n_train =? 0 then inl ValueError else inr (n_train, n_test).

(** [check_random_state]: an integer seeds a fresh generator, [None] draws
    from the process-wide one and advances it. *)
Definition draw_permutation (random_state : option Z) (n : nat) : M (list nat) := λ w,
  match random_state with
  | Some seed => (Returned (rng_permutation (seed_rng seed) n).1, w)
  | None =>
      let '(p, g) := rng_permutation (np_random w) n in
      (Returned p, set_np_random g w)
  end.

(** [[X[idx] for idx in indices]] *)
Definition safe_indexing {A} (X : list A) (indices : list nat) : M (list A) :=
  match mapM (λ idx, X !! idx) indices with
  | Some l => ret l
  | None => raise IndexError
  end.

Definition train_test_split {A} (arr : list A) (test_size : Q)
    (random_state : option Z) : M (list A * list A) :=
  match validate_shuffle_split (length arr) test_size with
  | inl e => raise e
  | inr (n_train, n_test) =>
      permutation <- draw_permutation random_state (length arr) ;;
      let ind_test := take n_test permutation in
      let ind_train := take n_train (drop n_test permutation) in
      train <- safe_indexing arr ind_train ;;
      test <- safe_indexing arr ind_test ;;
      ret (train, test)
  end.

(** ** [split_data] *)

(** [sum(len(os.listdir(os.path.join(d0, d))) for d in os.listdir(d0))] *)
Definition count_entries (d0 : path) : M nat :=
  ds <- os_listdir d0 ;;
  ns <- map_M (λ d, l <- os_listdir (os_path_join d0 d) ;; ret (length l)) ds ;;
  ret (sum_list ns).

(** One of the two copy loops: each image of the class goes to the
    destination under its own name, and the copy is recorded. *)
Definition copy_images (s : subset) (class_dir dest_dir : path)
    (imgs : list string) : M unit :=
  for_each imgs (λ img,
    dst <- shutil_copy (os_path_join class_dir img) (os_path_join dest_dir img) ;;
    ghost (EvCopy s (os_path_join class_dir img) dst)).

(** The body of the loop over the entries of the source directory. *)
Definition split_class (source_dir train_dir val_dir : path) (split_ratio : Q)
    (class_name : string) : M unit :=
  let class_dir := os_path_join source_dir class_name in
  is_dir <- os_path_isdir class_dir ;;
  if is_dir then
    names <- os_listdir class_dir ;;
    let images := filter (λ img, is_image img) names in
    parts <- train_test_split images split_ratio (Some 42%Z) ;;
    let '(train_images, val_images) := parts in
    ghost (EvSplit class_name images train_images val_images) ;;;
    os_makedirs (os_path_join train_dir class_name) true ;;;
    os_makedirs (os_path_join val_dir class_name) true ;;;
    copy_images Train class_dir (os_path_join train_dir class_name) train_images ;;;
    copy_images Val class_dir (os_path_join val_dir class_name) val_images
  else ret tt.

Definition split_data (source_dir train_dir val_dir : path) (split_ratio : Q)
    : M unit :=
  class_names <- os_listdir source_dir ;;
  for_each class_names (split_class source_dir train_dir val_dir split_ratio) ;;;
  n_train <- count_entries train_dir ;;
  print ("Data split complete. Training images: " +:+ pretty n_train) ;;;
  n_val <- count_entries val_dir ;;
  print ("Validation images: " +:+ pretty n_val).

End Splitter.


(** ** The model and its two training phases (cells 8 to 24) *)

(** [flow_from_directory]: the classes are the sub-directories of the
    directory, in sorted order, numbered from zero. *)
Definition class_indices (m : filesystem) (directory : path)
    : list (string * nat) :=
  let classes :=
    filter (λ subdir, is_dir_node (stat m (os_path_join directory subdir)))
      (merge_sort String.le (children m directory)) in
  zip classes (seq 0 (length classes)).

(** A layer of the backbone, as far as training is concerned. *)
Record layer := Layer {
  layer_name : string;
  trainable : bool
}.

(** [model.trainable = value] assigns the flag on every layer of the model. *)
Definition set_trainable (value : bool) (layers : list layer) : list layer :=
  (λ l, Layer (layer_name l) value) <$> layers.

(** [for layer in layers[:n]: layer.trainable = False] *)
Definition freeze_first (n : nat) (layers : list layer) : list layer :=
  set_trainable false (take n layers) ++ drop n layers.

Inductive activation := Relu | Softmax.

Inductive keras_layer :=
  | Functional (layers : list layer)
  | GlobalAveragePooling2D
  | Dense (units : nat) (act : activation)
  | BatchNormalization
  | Dropout (rate : Q).

(** Cell 13: the backbone, the pooling, two dense blocks, the output. *)
Definition build_model (base_model : list layer) (classes : list (string * nat))
    : list keras_layer :=
  [Functional base_model;
   GlobalAveragePooling2D;
   Dense 512 Relu;
   BatchNormalization;
   Dropout (1 # 2);
   Dense 256 Relu;
   BatchNormalization;
   Dropout (1 # 2);
   Dense (length classes) Softmax].

(** The shape of a layer's output for one image, given that of its input;
    the backbone maps a 299 x 299 x 3 image to 8 x 8 x 2048. *)
Definition layer_output_shape (l : keras_layer) (input : list nat) : list nat :=
  match l with
  | Functional _ => [8; 8; 2048]
  | GlobalAveragePooling2D => [List.last input 0]
  | Dense units _ => removelast input ++ [units]
  | BatchNormalization | Dropout _ => input
  end.

(** Cell 5. *)
Definition img_size : nat := 299.

Definition output_shape (model : list keras_layer) : list nat :=
  foldl (λ shape l, layer_output_shape l shape) [img_size; img_size; 3] model.

(** The state of the training session: the backbone's layers, the
    trainability flags the compiled train function was built with, and
    the flags each call of [fit] trained under. *)
Record session := Session {
  base_model : list layer;
  compiled : option (list bool);
  fits : list (list bool)
}.

Definition compile (s : session) : session :=
  Session (base_model s) (Some (trainable <$> base_model s)) (fits s).

Definition fit (s : session) : session :=
  match compiled s with
  | Some flags => Session (base_model s) (compiled s) (fits s ++ [flags])
  | None => s
  end.

(** The cells from the freeze of cell 12 on, by number.  Building the
    model, evaluating, printing the summary and saving leave the session
    as it is. *)
Definition cells : list (nat * (session → session)) :=
  [(12, λ s, Session (set_trainable false (base_model s)) (compiled s) (fits s));
   (13, λ s, s);
   (14, compile);
   (15, λ s, s);
   (16, fit);
   (17, λ s, s);
   (18, λ s, Session (freeze_first 249 (set_trainable true (base_model s)))
                     (compiled s) (fits s));
   (19, compile);
   (20, λ s, s);
   (21, fit);
   (22, λ s, s);
   (23, λ s, s);
   (24, λ s, s)].

(** The session after the cells up to number [k], from the backbone as
    cell 11 loaded it. *)
Definition session_after (k : nat) (backbone : list layer) : session :=
  foldl (λ s c, c.2 s) (Session backbone None [])
    (List.filter (λ c, c.1 <=? k) cells).

(** ** A generator and worlds to run the model on *)

(** A stand-in for the Mersenne Twister: an even state reverses
    [range(n)], an odd one leaves it in order. *)
#[export] Instance toy_rng : RandomState := {|
  rng := Z;
  seed_rng := λ seed, seed;
  rng_permutation := λ g n,
    (if Z.even g then rev (seq 0 n) else seq 0 n, (g + 1)%Z);
  rng_permutation_perm := λ g n,
    match Z.even g as b
      return (if b then rev (seq 0 n) else seq 0 n) ≡ₚ seq 0 n
    with
    | true => Permutation_sym (Permutation_rev (seq 0 n))
    | false => Permutation_refl (seq 0 n)
    end
|}.

Definition ex_bytes (n : string) : list Byte.byte :=
  match n with
  | String a _ => [Ascii.byte_of_ascii a]
  | EmptyString => []
  end.

Definition ex_file (dir : path) (n : string) : path * node :=
  (dir ++ [n], File true (ex_bytes n)).

(** [data/] holds a stray file and the class [A]: six images and a file
    whose extension is in upper case. *)
Definition ex_entries : list (path * node) :=
  [(["data"], Dir); (["data"; "notes.txt"], File true []);
   (["data"; "A"], Dir); (["data"; "A"; "x.JPG"], File true [])] ++
  (ex_file ["data"; "A"] <$> ["a.jpg"; "b.jpg"; "c.jpeg"; "d.png"; "e.jpg"; "f.jpg"]).

Definition ex_fs : filesystem := list_to_map ex_entries.

Definition ex_world : world := World ex_fs 7%Z [] [].

(** The same, after an earlier run left [train/A/old.jpg] behind. *)
Definition stale_fs : filesystem :=
  <[["train"; "A"; "old.jpg"] := File true []]>
    (<[["train"; "A"] := Dir]> (<[["train"] := Dir]> ex_fs)).

Definition stale_world : world :=
  World stale_fs 8%Z ["Found 350 images belonging to 4 classes."] [].

(** The same as [ex_fs], with an image the process may not read. *)
Definition locked_fs : filesystem :=
  <[["data"; "A"; "c.jpeg"] := File false []]> ex_fs.

Definition locked_world : world := World locked_fs 7%Z [] [].

(** A source whose only class holds a single image. *)
Definition lonely_fs : filesystem :=
  list_to_map [(["data"], Dir); (["data"; "B"], Dir);
               ex_file ["data"; "B"] "only.jpg"].

Definition lonely_world : world := World lonely_fs 7%Z [] [].

(** The call of cell 4: [split_data(base_dir, train_dir, val_dir)] with
    the default ratio. *)
Definition base_dir : path := ["data"].
Definition train_dir : path := ["train"].
Definition val_dir : path := ["val"].
Definition default_split_ratio : Q := (1 # 5)%Q.

Definition cell_4 : M unit :=
  split_data base_dir train_dir val_dir default_split_ratio.
(** * Vocabulary of the statements *)

(** Two directories are separated when neither lies inside the other;
    a path is related to a directory when it is on the branch through it. *)
Definition related (p d : path) : Prop := p `prefix_of` d ∨ d `prefix_of` p.
Definition separated (a b : path) : Prop := ¬ related a b.

#[global] Instance related_dec p d : Decision (related p d).
Proof. unfold related. apply _. Defined.

#[global] Instance separated_dec a b : Decision (separated a b).
Proof. unfold separated. apply _. Defined.

#[global] Instance event_eq_dec : EqDecision event.
Proof. solve_decision. Defined.

(** What [os.makedirs(name)] may do to a file system: create directories,
    and only at paths that led to [name] and did not exist. *)
Definition adds_dirs (name : path) (m m' : filesystem) : Prop :=
  ∀ p, m' !! p = m !! p ∨
       (m !! p = None ∧ m' !! p = Some Dir ∧ p `prefix_of` name ∧ p ≠ []).

(** What [train_test_split] returns on [arr] at ratio [r]. *)
Definition n_test_of (n : nat) (r : Q) : nat :=
  Z.to_nat (Qceiling (r * inject_Z (Z.of_nat n))).

Definition split_ok {A} (arr : list A) (r : Q) (train test : list A) : Prop :=
  length test = n_test_of (length arr) r ∧
  length train + length test = length arr ∧
  0 < length train ∧
  train ++ test ≡ₚ arr.

(** What a run may do to a file system, given its two destination roots:
    an entry changes only on the branch through a destination root, and
    then it is created or, being a file, overwritten by a file. *)
Definition fs_step (tr va : path) (m m' : filesystem) : Prop :=
  ∀ p, m' !! p = m !! p ∨
       ((related p tr ∨ related p va) ∧
        ((m !! p = None ∧ is_Some (m' !! p)) ∨
         (∃ rd data rd' data', m !! p = Some (File rd data) ∧
                               m' !! p = Some (File rd' data')))).

(** The root of one destination. *)
Definition dest_root (tr va : path) (s : subset) : path :=
  match s with Train => tr | Val => va end.

(** The records of one copy loop that ran to its end. *)
Definition copy_events (s : subset) (class_dir : path) (imgs : list string)
    (dsts : list path) : list event :=
  zip_with (λ img d, EvCopy s (os_path_join class_dir img) d) imgs dsts.

(** The image names a class directory lists. *)
Definition images_of (m : filesystem) (class_dir : path) : list string :=
  filter (λ img, is_image img) (children m class_dir).

(** [n] is what [count_entries d0] returns on the file system [m]:
    every entry of [d0] is a directory and [n] sums their entry counts. *)
Definition entry_counts (m : filesystem) (d0 : path) (n : nat) : Prop :=
  stat m d0 = Some Dir ∧
  ∃ ns, n = sum_list ns ∧
        Forall2 (λ d k, stat m (os_path_join d0 d) = Some Dir ∧
                        k = length (children m (os_path_join d0 d)))
          (children m d0) ns.

(** Python's [round]: to the nearest integer, a tie to the even one. *)
Definition py_round (q : Q) : Z :=
  let f := Qfloor q in
  match (q - inject_Z f ?= 1 # 2)%Q with
  | Lt => f
  | Gt => (f + 1)%Z
  | Eq => if Z.even f then f else (f + 1)%Z
  end.


(** The source paths of the copies made into one destination. *)
Definition copied_into (s : subset) (evs : list event) : list path :=
  omap (λ ev, match ev with
              | EvCopy s' src _ => if decide (s' = s) then Some src else None
              | EvSplit _ _ _ _ => None
              end) evs.

(** Nothing lies below [d] (which itself may exist). *)
Definition fresh (d : path) (m : filesystem) : Prop :=
  ∀ p, d `prefix_of` p → p ≠ d → m !! p = None.

(** A path that [os.makedirs] can reach: no component on the way is a
    file. *)
Definition reachable (name : path) (m : filesystem) : Prop :=
  ∀ q, q `prefix_of` name → q ≠ [] → m !! q = None ∨ m !! q = Some Dir.

(** A world prepared for a run: the source is a directory with at least
    one class directory; each class directory lists enough images for the
    ratio, all of them readable files; the three directories lie apart
    from one another; nothing lies below the destinations, and they can
    be reached. *)
Definition prepared (src tr va : path) (r : Q) (m : filesystem) : Prop :=
  stat m src = Some Dir ∧
  (∃ c, c ∈ children m src ∧ m !! (src ++ [c]) = Some Dir) ∧
  (∀ c, c ∈ children m src → m !! (src ++ [c]) = Some Dir →
     (∃ sizes, validate_shuffle_split (length (images_of m (src ++ [c]))) r
               = inr sizes) ∧
     ∀ img, img ∈ images_of m (src ++ [c]) →
       ∃ data, m !! (src ++ [c; img]) = Some (File true data)) ∧
  separated src tr ∧ separated src va ∧ separated tr va ∧
  fresh tr m ∧ fresh va m ∧ reachable tr m ∧ reachable va m.

(** What the loops keep true of the two destinations: no file on the way
    to a root or in the place of a class directory, no directory in the
    place of an image, and a root that holds a class directory is itself
    a directory. *)
Definition dest_ready (tr va : path) (m : filesystem) : Prop :=
  (∀ s, reachable (dest_root tr va s) m) ∧
  (∀ s c, m !! (dest_root tr va s ++ [c]) = None
          ∨ m !! (dest_root tr va s ++ [c]) = Some Dir) ∧
  (∀ s c i, m !! (dest_root tr va s ++ [c; i]) ≠ Some Dir) ∧
  (∀ s c, is_Some (m !! (dest_root tr va s ++ [c])) →
          stat m (dest_root tr va s) = Some Dir).

Section Vocabulary.
Context `{RandomState}.

(** [wp m Q w]: running [m] on [w] ends, returning or raising, in an outcome
    and a world that satisfy [Q]. *)
Definition wp {A} (m : M A) (Q : outcome A → world → Prop) (w : world) : Prop :=
  Q (m w).1 (m w).2.

(** The worlds differ at most in the file system. *)
Definition same_but_fs (w w' : world) : Prop :=
  np_random w' = np_random w ∧ stdout w' = stdout w ∧ trace w' = trace w.

(** What a call of [os.makedirs] leaves behind. *)
Definition makedirs_post (name : path) (w : world) (o : outcome unit) (w' : world)
    : Prop :=
  same_but_fs w w' ∧ adds_dirs name (fs w) (fs w') ∧
  (o = Returned tt → stat (fs w') name = Some Dir).

(** What a call of [shutil.copy] leaves behind: nothing when it raises;
    when it returns the path [d] it wrote, [d] is the destination or, the
    destination being a directory, the entry in it named after the source,
    and [d] now holds the bytes of the source, which was readable. *)
Definition copy_post (src dst : path) (w : world) (o : outcome path) (w' : world)
    : Prop :=
  match o with
  | Raised _ => w' = w
  | Returned d =>
      (d = dst ∧ stat (fs w) dst ≠ Some Dir ∨
       d = dst ++ [basename src] ∧ stat (fs w) dst = Some Dir) ∧
      d ≠ src ∧ d ≠ [] ∧
      stat (fs w) d ≠ Some Dir ∧ stat (fs w) (dirname d) = Some Dir ∧
      ∃ data, fs w !! src = Some (File true data) ∧
              w' = set_fs (<[d := File true data]> (fs w)) w
  end.

(** The events of one class iteration that returns, on the file system
    [m] it started from: none for an entry that is not a directory;
    otherwise the split of the images listed, then one copy per training
    image and one per validation image, in order. *)
Definition class_block (src : path) (r : Q) (c : string) (m : filesystem)
    (evs : list event) : Prop :=
  match stat m (os_path_join src c) with
  | Some Dir =>
      ∃ t v dt dv,
        evs = EvSplit c (images_of m (os_path_join src c)) t v ::
              copy_events Train (os_path_join src c) t dt ++
              copy_events Val (os_path_join src c) v dv ∧
        length dt = length t ∧ length dv = length v ∧
        split_ok (images_of m (os_path_join src c)) r t v ∧
        ∀ w, train_test_split (images_of m (os_path_join src c)) r (Some 42%Z) w
             = (Returned (t, v), w)
  | _ => evs = []
  end.

(** What the two copy loops of class [c] keep true, on top of
    [dest_ready]: the source is as in the world [w0] the run started from,
    and the destination roots and their class directories exist. *)
Definition class_ready (src tr va : path) (c : string) (w0 w : world) : Prop :=
  (∀ p, src `prefix_of` p → fs w !! p = fs w0 !! p) ∧
  dest_ready tr va (fs w) ∧
  (∀ s, stat (fs w) (os_path_join (dest_root tr va s) c) = Some Dir) ∧
  (∀ s, stat (fs w) (dest_root tr va s) = Some Dir).

(** The events a run appended to the trace. *)
Definition new_events (w w' : world) : list event :=
  drop (length (trace w)) (trace w').

(** [w'] is a world a run may reach from [w]: the generator is
    untouched, the console and the trace have grown, and the file system
    has taken [fs_step]s. *)
Definition evolves (tr va : path) (w w' : world) : Prop :=
  np_random w' = np_random w ∧
  stdout w `prefix_of` stdout w' ∧
  trace w `prefix_of` trace w' ∧
  fs_step tr va (fs w) (fs w').


End Vocabulary.


(** ** Vocabulary of the further properties *)

(** The class directories of the source: the entries of [src] that are
    directories, in listing order. *)
Definition class_dirs (m : filesystem) (src : path) : list string :=
  filter (λ c, is_dir_node (stat m (os_path_join src c))) (children m src).



(** The part of a split that goes to one destination. *)
Definition part (s : subset) (train val : list string) : list string :=
  match s with Train => train | Val => val end.

Section MoreVocabulary.
Context `{RandomState}.


End MoreVocabulary.

(** ** Further example worlds *)



(** The example source, with a file left in the train directory. *)
Definition stray_fs : filesystem :=
  <[["train"; ".DS_Store"] := File true []]> (<[["train"] := Dir]> ex_fs).

Definition stray_world : world := World stray_fs 7%Z [] [].
(** * Properties *)

(** ** Paths and directory listings *)

#[global] Instance name_le_trans : Transitive name_le.
Proof. intros x y z. unfold name_le. lia. Qed.

#[global] Instance name_le_total : Total name_le.
Proof. intros x y. unfold name_le. lia. Qed.

#[global] Instance name_le_antisymm : AntiSymm (=) name_le.
Proof.
  intros x y Hxy Hyx. unfold name_le in *.
  apply (inj encode). lia.
Qed.

Lemma child_of_Some dir p n : child_of dir p = Some n ↔ p = dir ++ [n].
Proof.
  revert p. induction dir as [|d dir IH]; intros p; simpl.
  - destruct p as [|c [|c' p']]; split; intros Heq; by simplify_eq.
  - destruct p as [|c p']; [split; intros Heq; by simplify_eq|].
    case_decide as Hdc.
    + subst c. rewrite IH. split; intros Heq; by simplify_eq.
    + split; intros Heq; by simplify_eq.
Qed.

Lemma elem_of_children (m : filesystem) dir n :
  n ∈ children m dir ↔ is_Some (m !! (dir ++ [n])).
Proof.
  unfold children. rewrite merge_sort_Permutation, list_elem_of_omap. split.
  - intros (p & Hp & Hc). apply child_of_Some in Hc as ->.
    apply list_elem_of_fmap in Hp as ([p x] & -> & Hp).
    apply elem_of_map_to_list in Hp. eauto.
  - intros [x Hx]. exists (dir ++ [n]). split; [|by apply child_of_Some].
    apply list_elem_of_fmap. exists (dir ++ [n], x). split; [done|].
    by apply elem_of_map_to_list.
Qed.

Lemma NoDup_children (m : filesystem) dir : NoDup (children m dir).
Proof.
  unfold children. rewrite merge_sort_Permutation.
  pose proof (NoDup_fst_map_to_list m) as Hnd.
  induction Hnd as [|p l Hp Hnd IH]; simpl; [constructor|].
  destruct (child_of dir p) as [n|] eqn:Hc; [|done].
  constructor; [|done].
  rewrite list_elem_of_omap. intros (q & Hq & Hcq).
  apply child_of_Some in Hc, Hcq. congruence.
Qed.

(** The listing of a directory is determined by which entries exist. *)
Lemma children_ext (m1 m2 : filesystem) dir :
  (∀ n, is_Some (m1 !! (dir ++ [n])) ↔ is_Some (m2 !! (dir ++ [n]))) →
  children m1 dir = children m2 dir.
Proof.
  intros Hext. apply (Sorted_unique name_le).
  - apply Sorted_merge_sort, _.
  - apply Sorted_merge_sort, _.
  - apply NoDup_Permutation; [apply NoDup_children..|].
    intros n. rewrite !elem_of_children. apply Hext.
Qed.

Lemma prefix_of_snoc (p d : path) (c : string) :
  p `prefix_of` d ++ [c] → p `prefix_of` d ∨ p = d ++ [c].
Proof.
  intros [k Hk]. destruct (decide (k = [])) as [->|Hne].
  - right. by rewrite app_nil_r in Hk.
  - left. destruct (exists_last Hne) as (k' & x & ->).
    rewrite app_assoc in Hk. apply app_inj_tail in Hk as [-> _].
    by exists k'.
Qed.

Lemma removelast_snoc (d : path) (c : string) : removelast (d ++ [c]) = d.
Proof. apply removelast_last. Qed.

Lemma last_snoc (d : path) (c : string) : List.last (d ++ [c]) EmptyString = c.
Proof. apply last_last. Qed.

Lemma separated_sym a b : separated a b → separated b a.
Proof. unfold separated, related. tauto. Qed.

Lemma separated_below a b k : separated a b → ¬ a `prefix_of` b ++ k.
Proof.
  intros Hsep Hpre. apply Hsep.
  destruct (prefix_weak_total a b (b ++ k)) as [?|?];
    [done|by apply prefix_app_r|by left|by right].
Qed.

Lemma separated_nonempty_l a b : separated a b → a ≠ [].
Proof. intros Hsep ->. apply Hsep. left. apply prefix_nil. Qed.

Lemma separated_related a b p :
  separated a b → a `prefix_of` p → ¬ related p b.
Proof.
  intros Hsep [k ->] [Hr|Hr].
  - apply Hsep. left. etrans; [|done]. by apply prefix_app_r.
  - by apply (separated_below b a k); [apply separated_sym|].
Qed.

(** ** Reasoning about computations *)

Section Facts.
Context `{RandomState}.

Lemma wp_ret {A} (a : A) Q w : Q (Returned a) w → wp (ret a) Q w.
Proof. done. Qed.

Lemma wp_raise {A} e (Q : outcome A → world → Prop) w :
  Q (Raised e) w → wp (raise e) Q w.
Proof. done. Qed.

Lemma wp_bind {A B} (m : M A) (f : A → M B) Q w :
  wp m (λ o w1, match o with
                | Returned a => wp (f a) Q w1
                | Raised e => Q (Raised e) w1
                end) w →
  wp (bind m f) Q w.
Proof. unfold wp, bind. by destruct (m w) as [[a|e] w1]. Qed.

Lemma wp_try_except {A} (m : M A) handler Q w :
  wp m (λ o w1, match o with
                | Returned a => Q (Returned a) w1
                | Raised e => wp (handler e) Q w1
                end) w →
  wp (try_except m handler) Q w.
Proof. unfold wp, try_except. by destruct (m w) as [[a|e] w1]. Qed.

Lemma wp_mono {A} (m : M A) (Q Q' : outcome A → world → Prop) w :
  wp m Q w → (∀ o w', Q o w' → Q' o w') → wp m Q' w.
Proof. unfold wp. auto. Qed.

Lemma wp_eq {A} (m : M A) Q w o w' : m w = (o, w') → Q o w' → wp m Q w.
Proof. unfold wp. intros Hm HQ. by rewrite Hm. Qed.

Lemma wp_elim {A} (m : M A) Q w o w' : wp m Q w → m w = (o, w') → Q o w'.
Proof. unfold wp. intros HQ Hm. by rewrite Hm in HQ. Qed.

(** A loop keeps [I done] along the items already handled; when an
    iteration raises the loop stops and [E] holds. *)
Lemma wp_for_each {A} (I : list A → world → Prop) (E : world → Prop)
    (xs : list A) (body : A → M unit) w :
  I [] w →
  (∀ done x rest w1, xs = done ++ x :: rest → I done w1 →
     wp (body x) (λ o w2, match o with
                          | Returned _ => I (done ++ [x]) w2
                          | Raised _ => E w2
                          end) w1) →
  wp (for_each xs body) (λ o w', match o with
                                 | Returned _ => I xs w'
                                 | Raised _ => E w'
                                 end) w.
Proof.
  intros HI Hbody.
  cut (∀ done rest w1, xs = done ++ rest → I done w1 →
         wp (for_each rest body) (λ o w', match o with
                                          | Returned _ => I xs w'
                                          | Raised _ => E w'
                                          end) w1).
  { intros Hgen. by apply (Hgen [] xs). }
  intros done rest. revert done.
  induction rest as [|x rest IH]; intros done w1 Hxs HI1; simpl.
  - apply wp_ret. by rewrite Hxs, app_nil_r.
  - apply wp_bind. eapply wp_mono; [by eapply Hbody|].
    intros [[]|e] w2 H2; [|done].
    apply (IH (done ++ [x])); [|done]. by rewrite <-app_assoc.
Qed.

(** The special case of an invariant that holds however the loop ends. *)
Lemma wp_for_each_inv {A} (I : world → Prop) (xs : list A) (body : A → M unit) w :
  I w →
  (∀ x w1, x ∈ xs → I w1 → wp (body x) (λ _ w2, I w2) w1) →
  wp (for_each xs body) (λ _ w', I w') w.
Proof.
  intros HI Hbody.
  eapply wp_mono; [apply (wp_for_each (λ _, I) I); [done|]|].
  - intros done x rest w1 -> HI1. eapply wp_mono; [apply Hbody; [|done]|].
    + set_solver.
    + by intros [[]|e] w2.
  - by intros [[]|e] w'.
Qed.

Lemma wp_map_M_inv {A B} (I : world → Prop) (f : A → M B) (xs : list A) w :
  I w →
  (∀ x w1, x ∈ xs → I w1 → wp (f x) (λ _ w2, I w2) w1) →
  wp (map_M f xs) (λ _ w', I w') w.
Proof.
  revert w. induction xs as [|x xs IH]; intros w HI Hf; simpl.
  - by apply wp_ret.
  - apply wp_bind. eapply wp_mono; [apply Hf; [set_solver|done]|].
    intros [y|e] w1 H1; [|done]. apply wp_bind.
    eapply wp_mono; [apply IH; [done|]|].
    + intros x' w2 Hx'. apply Hf. set_solver.
    + by intros [ys|e] w2 H2.
Qed.

(** Inversion of a run that returns. *)
Lemma bind_Returned {A B} (m : M A) (f : A → M B) w b w' :
  bind m f w = (Returned b, w') →
  ∃ a w1, m w = (Returned a, w1) ∧ f a w1 = (Returned b, w').
Proof. unfold bind. destruct (m w) as [[a|e] w1]; [eauto|done]. Qed.

Lemma for_each_cons {A} (x : A) xs body :
  for_each (x :: xs) body = bind (body x) (λ _, for_each xs body).
Proof. done. Qed.

Lemma for_each_Returned {A} (I : list A → world → Prop)
    (xs : list A) (body : A → M unit) w w' :
  for_each xs body w = (Returned tt, w') →
  I [] w →
  (∀ done x rest w1 w2, xs = done ++ x :: rest → I done w1 →
     body x w1 = (Returned tt, w2) → I (done ++ [x]) w2) →
  I xs w'.
Proof.
  intros Hrun HI Hbody.
  assert (wp (for_each xs body) (λ o w', match o with
                                         | Returned _ => I xs w'
                                         | Raised _ => True
                                         end) w) as Hwp.
  { apply wp_for_each; [done|].
    intros done x rest w1 Hxs HI1. unfold wp.
    destruct (body x w1) as [[[]|e] w2] eqn:Hb; simpl; [|done]. eauto. }
  by apply (wp_elim _ _ _ _ _ Hwp Hrun).
Qed.

(** ** The library routines *)

Lemma stat_nonempty (m : filesystem) p : p ≠ [] → stat m p = m !! p.
Proof. by destruct p. Qed.

Lemma stat_snoc (m : filesystem) d c : stat m (d ++ [c]) = m !! (d ++ [c]).
Proof. apply stat_nonempty. by destruct d. Qed.

Lemma adds_dirs_refl name m : adds_dirs name m m.
Proof. intros p. by left. Qed.

Lemma adds_dirs_trans name m1 m2 m3 :
  adds_dirs name m1 m2 → adds_dirs name m2 m3 → adds_dirs name m1 m3.
Proof.
  intros H12 H23 p. destruct (H12 p) as [E12|(?&?&?&?)], (H23 p) as [E23|(?&?&?&?)].
  - left. congruence.
  - right. repeat split; congruence || done.
  - right. repeat split; congruence || done.
  - congruence.
Qed.

Lemma adds_dirs_weaken name name' m m' :
  name `prefix_of` name' → adds_dirs name m m' → adds_dirs name' m m'.
Proof.
  intros Hpre Hadd p. destruct (Hadd p) as [?|(?&?&?&?)]; [by left|right].
  repeat split; try done. by etrans.
Qed.

Lemma same_but_fs_refl w : same_but_fs w w.
Proof. done. Qed.

Lemma same_but_fs_trans w1 w2 w3 :
  same_but_fs w1 w2 → same_but_fs w2 w3 → same_but_fs w1 w3.
Proof. unfold same_but_fs. intros (?&?&?) (?&?&?). repeat split; congruence. Qed.

Lemma os_mkdir_spec name w :
  (∃ e, os_mkdir name w = (Raised e, w)) ∨
  (name ≠ [] ∧ fs w !! name = None ∧
   os_mkdir name w = (Returned tt, set_fs (<[name := Dir]> (fs w)) w)).
Proof.
  unfold os_mkdir. destruct (stat (fs w) (dirname name)) as [[|rd data]|]; eauto.
  destruct (stat (fs w) name) as [n|] eqn:Hst; eauto.
  right. destruct name; [done|]. eauto.
Qed.

Lemma fs_set_fs m w : fs (set_fs m w) = m.
Proof. done. Qed.

Lemma same_but_fs_set_fs m w : same_but_fs w (set_fs m w).
Proof. done. Qed.

(** The last step of [os.makedirs]: make the leaf, or accept it. *)
Lemma mkdir_leaf_spec name exist_ok (pre : M unit) w :
  wp pre (λ _ w1, same_but_fs w w1 ∧ adds_dirs name (fs w) (fs w1)) w →
  wp (bind pre (λ _, try_except (os_mkdir name)
       (λ e, if is_OSError e then
          bind (os_path_isdir name)
            (λ leaf_is_dir, if negb exist_ok || negb leaf_is_dir
                            then raise e else ret tt)
        else raise e)))
    (makedirs_post name w) w.
Proof.
  intros Hpre. apply wp_bind. eapply wp_mono; [exact Hpre|].
  intros o w1 [Hsame Hadd].
  assert (∀ e, makedirs_post name w (Raised e) w1) as Hraise.
  { intros e. by split; [|split]. }
  destruct o as [[]|e]; [|apply Hraise].
  apply wp_try_except. unfold wp.
  destruct (os_mkdir_spec name w1) as [[e ->]|(Hne & Hnone & ->)]; cbn [fst snd].
  - destruct (is_OSError e); [|apply Hraise].
    unfold bind, os_path_isdir. cbn [fst snd].
    destruct (negb exist_ok || negb _) eqn:Hb; cbn [fst snd raise ret]; [apply Hraise|].
    split; [done|split; [done|intros _]].
    apply orb_false_elim in Hb as [_ Hb]. apply negb_false_iff in Hb.
    destruct (stat (fs w1) name) as [[|??]|]; done.
  - split; [|split].
    + eapply same_but_fs_trans; [done|apply same_but_fs_set_fs].
    + eapply adds_dirs_trans; [exact Hadd|]. intros p. rewrite fs_set_fs.
      destruct (decide (p = name)) as [->|Hp].
      * right. by rewrite lookup_insert_eq.
      * left. by rewrite lookup_insert_ne.
    + intros _. rewrite fs_set_fs, stat_nonempty by done. apply lookup_insert_eq.
Qed.

Lemma makedirs_rev_spec rname exist_ok w :
  wp (makedirs_rev rname exist_ok) (makedirs_post (rev rname) w) w.
Proof.
  revert w. induction rname as [|x rhead IH]; intros w.
  - apply mkdir_leaf_spec, wp_ret. split; [done|apply adds_dirs_refl].
  - destruct rhead as [|y rhead'].
    + apply mkdir_leaf_spec, wp_ret. split; [done|apply adds_dirs_refl].
    + apply mkdir_leaf_spec. apply wp_bind. unfold wp at 1. cbn [fst snd os_path_exists].
      destruct (bool_decide _); [apply wp_ret; split; [done|apply adds_dirs_refl]|].
      apply wp_try_except. eapply wp_mono; [apply IH|].
      intros o w1 (Hsame & Hadd & _).
      assert (same_but_fs w w1 ∧ adds_dirs (rev (x :: y :: rhead')) (fs w) (fs w1)) as Hw1.
      { split; [done|]. eapply adds_dirs_weaken; [|exact Hadd].
        change (rev (x :: y :: rhead')) with (rev (y :: rhead') ++ [x]).
        by apply prefix_app_r. }
      destruct o as [[]|e]; [done|]. by destruct e.
Qed.

Lemma os_makedirs_spec name exist_ok w :
  wp (os_makedirs name exist_ok) (makedirs_post name w) w.
Proof.
  unfold os_makedirs. rewrite <-(rev_involutive name) at 2.
  apply makedirs_rev_spec.
Qed.

Lemma shutil_copy_spec src dst w :
  wp (shutil_copy src dst) (copy_post src dst w) w.
Proof.
  unfold wp, shutil_copy, os_path_join.
  set (d := if is_dir_node (stat (fs w) dst) then dst ++ [basename src] else dst).
  assert (d = dst ∧ stat (fs w) dst ≠ Some Dir ∨
          d = dst ++ [basename src] ∧ stat (fs w) dst = Some Dir) as Hd.
  { unfold d. destruct (stat (fs w) dst) as [[|??]|]; simpl; auto. }
  clearbody d.
  destruct (stat (fs w) src) as [[|rd data]|] eqn:Hsrc; simpl; [by case_decide|..|done].
  case_decide as Hne; simpl; [done|].
  destruct rd; simpl; [|done].
  assert (fs w !! src = Some (File true data)) as Hlook by by destruct src.
  destruct (stat (fs w) d) as [[|rd' data']|] eqn:Hdst; simpl; [done|..];
    (destruct (stat (fs w) (dirname d)) as [[|??]|] eqn:Hpar; simpl; try done;
     split; [done|]; split; [done|]; split; [by intros ->|];
     split; [congruence|]; split; [done|]; by exists data).
Qed.

(** ** [train_test_split] *)

Lemma validate_shuffle_split_inr n r n_train n_test :
  validate_shuffle_split n r = inr (n_train, n_test) →
  n_test = n_test_of n r ∧ n_train + n_test = n ∧ 0 < n_train.
Proof.
  unfold validate_shuffle_split, n_test_of.
  destruct (Qle_bool r 0 || Qle_bool 1 r); [done|].
  destruct (_ =? 0) eqn:Hz; [done|].
  apply Nat.eqb_neq in Hz. intros [= <- <-]. lia.
Qed.

Lemma omap_lookup_seq {A} (arr : list A) :
  omap (λ idx, arr !! idx) (seq 0 (length arr)) = arr.
Proof.
  induction arr as [|x arr IH] using rev_ind; [done|].
  rewrite length_app. cbn [length]. rewrite Nat.add_1_r, seq_S, omap_app.
  cbn [omap list_omap Nat.add]. rewrite lookup_app_r, Nat.sub_diag by done.
  cbn [lookup list_lookup app]. f_equal.
  rewrite <-IH at 2. apply list_omap_ext. apply Forall2_same_length_lookup_2; [done|].
  intros i y z Hy Hz. assert (y = z) as <- by congruence.
  apply lookup_seq in Hy as [-> Hi]. simpl. by rewrite lookup_app_l.
Qed.

Lemma mapM_omap {A B} (f : A → option B) l k : mapM f l = Some k → omap f l = k.
Proof.
  rewrite mapM_Some. induction 1 as [|x y l k Hxy _ IH]; [done|].
  cbn. rewrite Hxy. cbn. by f_equal.
Qed.

Lemma shuffle_split_perm {A} (arr : list A) (permutation : list nat)
    n_train n_test train test :
  permutation ≡ₚ seq 0 (length arr) →
  n_train + n_test = length arr →
  mapM (λ idx, arr !! idx) (take n_train (drop n_test permutation)) = Some train →
  mapM (λ idx, arr !! idx) (take n_test permutation) = Some test →
  length train = n_train ∧ length test = n_test ∧ train ++ test ≡ₚ arr.
Proof.
  intros Hperm Hn Htrain Htest.
  assert (length permutation = length arr) as Hlen.
  { by rewrite Hperm, length_seq. }
  split; [|split].
  - apply mapM_Some, Forall2_length in Htrain. rewrite <-Htrain.
    rewrite length_take, length_drop. lia.
  - apply mapM_Some, Forall2_length in Htest. rewrite <-Htest.
    rewrite length_take. lia.
  - apply mapM_omap in Htrain, Htest. subst train test.
    rewrite take_ge by (rewrite length_drop; lia).
    rewrite Permutation_app_comm, <-omap_app, take_drop, Hperm.
    by rewrite omap_lookup_seq.
Qed.

(** With an integer seed the split reads nothing of the world and leaves
    it as it was; what it returns meets [split_ok]. *)
Lemma train_test_split_seeded {A} (arr : list A) r seed :
  ∃ o, (∀ w, train_test_split arr r (Some seed) w = (o, w)) ∧
       ∀ train test, o = Returned (train, test) → split_ok arr r train test.
Proof.
  unfold train_test_split.
  destruct (validate_shuffle_split (length arr) r) as [e|[n_train n_test]] eqn:Hv.
  { exists (Raised e). by split. }
  apply validate_shuffle_split_inr in Hv as (Hte & Hsum & Hpos).
  set (permutation := (rng_permutation (seed_rng seed) (length arr)).1).
  unfold bind, draw_permutation, safe_indexing. fold permutation.
  destruct (mapM _ (take n_train _)) as [train|] eqn:Htrain;
    [|exists (Raised IndexError); by split].
  destruct (mapM _ (take n_test _)) as [test|] eqn:Htest;
    [|exists (Raised IndexError); by split].
  exists (Returned (train, test)). split; [done|].
  intros ?? [= <- <-].
  destruct (shuffle_split_perm arr permutation n_train n_test train test)
    as (Hl1 & Hl2 & Hp); [apply rng_permutation_perm|done..|].
  unfold split_ok. rewrite Hl1, Hl2. done.
Qed.

(** ** What a run may change *)

Lemma fs_step_refl tr va m : fs_step tr va m m.
Proof. intros p. by left. Qed.

Lemma fs_step_trans tr va m1 m2 m3 :
  fs_step tr va m1 m2 → fs_step tr va m2 m3 → fs_step tr va m1 m3.
Proof.
  intros H12 H23 p.
  destruct (H12 p) as [E12|[Hr12 H12']]; [rewrite <-E12; apply H23|].
  destruct (H23 p) as [E23|[Hr23 H23']]; [rewrite E23; by right|].
  right. split; [done|].
  destruct H12' as [[Hn1 Hs2]|(rd&data&rd'&data'&Hf1&Hf2)],
           H23' as [[Hn2 Hs3]|(rd2&data2&rd3&data3&Hf2'&Hf3)].
  - rewrite Hn2 in Hs2. by destruct Hs2.
  - left. split; [done|]. rewrite Hf3. eauto.
  - congruence.
  - right. exists rd, data, rd3, data3. split; congruence.
Qed.

Lemma fs_step_frame tr va m m' p :
  fs_step tr va m m' → ¬ related p tr → ¬ related p va → m' !! p = m !! p.
Proof. intros Hstep Htr Hva. destruct (Hstep p) as [?|[[?|?] _]]; done. Qed.

Lemma fs_step_Dir tr va m m' p :
  fs_step tr va m m' → m !! p = Some Dir → m' !! p = Some Dir.
Proof.
  intros Hstep Hp. destruct (Hstep p) as [ -> | [_ [[? _]|(?&?&?&?&?&_)]]];
    congruence.
Qed.

Lemma fs_step_File tr va m m' p rd data :
  fs_step tr va m m' → m !! p = Some (File rd data) →
  ∃ rd' data', m' !! p = Some (File rd' data').
Proof.
  intros Hstep Hp. destruct (Hstep p) as [ -> | [_ [[? _]|(?&?&?&?&?&?)]]];
    [eauto|congruence|eauto].
Qed.

Lemma fs_step_is_Some tr va m m' p :
  fs_step tr va m m' → is_Some (m !! p) → is_Some (m' !! p).
Proof.
  intros Hstep [[|rd data] Hp].
  - rewrite (fs_step_Dir _ _ _ _ _ Hstep Hp). eauto.
  - destruct (fs_step_File _ _ _ _ _ _ _ Hstep Hp) as (?&?&->). eauto.
Qed.


Lemma related_snoc_prefix (p d : path) (c : string) :
  p `prefix_of` d ++ [c] → related p d.
Proof.
  intros Hp. destruct (prefix_of_snoc _ _ _ Hp) as [?| ->]; [by left|right].
  by apply prefix_app_r.
Qed.

Lemma adds_dirs_fs_step (tr va : path) (s : subset) (c : string) (m m' : filesystem) :
  adds_dirs (dest_root tr va s ++ [c]) m m' → fs_step tr va m m'.
Proof.
  intros Hadd p. destruct (Hadd p) as [?|(Hn & Hd & Hpre & _)]; [by left|right].
  split.
  - apply related_snoc_prefix in Hpre. destruct s; auto.
  - left. rewrite Hd. eauto.
Qed.

Lemma insert_file_fs_step (tr va : path) (s : subset) (k : path) (m : filesystem)
    (rd : bool) (data : list Byte.byte) :
  stat m (dest_root tr va s ++ k) ≠ Some Dir →
  fs_step tr va m (<[dest_root tr va s ++ k := File rd data]> m).
Proof.
  intros Hnd p. destruct (decide (p = dest_root tr va s ++ k)) as [->|Hne].
  - right. split.
    + assert (related (dest_root tr va s ++ k) (dest_root tr va s)) as Hrel.
      { right. by apply prefix_app_r. }
      destruct s; auto.
    + rewrite lookup_insert_eq.
      destruct (m !! (dest_root tr va s ++ k)) as [[|rd' data']|] eqn:Hl.
      * destruct (dest_root tr va s ++ k); [done|]. simpl in Hnd. congruence.
      * right. eauto 10.
      * left. eauto.
  - left. by rewrite lookup_insert_ne.
Qed.

Lemma evolves_refl tr va w : evolves tr va w w.
Proof. repeat split; try done. apply fs_step_refl. Qed.

Lemma evolves_trans tr va w1 w2 w3 :
  evolves tr va w1 w2 → evolves tr va w2 w3 → evolves tr va w1 w3.
Proof.
  intros (?&?&?&?) (?&?&?&?). repeat split.
  - congruence.
  - by etrans.
  - by etrans.
  - by eapply fs_step_trans.
Qed.

(** ** The steps of a run *)

Lemma adds_dirs_stat_Dir (name : path) (m m' : filesystem) (p : path) :
  adds_dirs name m m' → stat m p = Some Dir → stat m' p = Some Dir.
Proof.
  intros Hadd. destruct p as [|x p]; [done|]. simpl.
  destruct (Hadd (x :: p)) as [->|(?&?&_)]; congruence.
Qed.

Lemma copy_post_stat_Dir src dst w d w1 p :
  copy_post src dst w (Returned d) w1 →
  stat (fs w) p = Some Dir → stat (fs w1) p = Some Dir.
Proof.
  intros (_ & _ & _ & Hnd & _ & data & _ & ->) Hp.
  destruct p as [|x p]; [done|]. simpl. rewrite lookup_insert_ne; [done|].
  intros ->. by rewrite stat_nonempty in Hnd.
Qed.

Lemma ghost_fs ev w : fs (ghost ev w).2 = fs w.
Proof. done. Qed.

Lemma ghost_trace ev w : trace (ghost ev w).2 = trace w ++ [ev].
Proof. done. Qed.

(** An invariant of the three kinds of step a class iteration is made of
    (recording the split, making a destination directory, copying one
    image and recording it) is an invariant of the iteration. *)
Lemma split_class_steps (I : world → Prop) (src tr va : path) (r : Q) (c : string) :
  (∀ w imgs t v, I w →
     stat (fs w) (os_path_join src c) = Some Dir →
     imgs = filter (λ img, is_image img) (children (fs w) (os_path_join src c)) →
     split_ok imgs r t v →
     I (ghost (EvSplit c imgs t v) w).2) →
  (∀ w s o w', I w →
     makedirs_post (os_path_join (dest_root tr va s) c) w o w' → I w') →
  (∀ w s i d w1, I w → is_image i →
     stat (fs w) (os_path_join src c) = Some Dir →
     shutil_copy (os_path_join (os_path_join src c) i)
       (os_path_join (os_path_join (dest_root tr va s) c) i) w = (Returned d, w1) →
     copy_post (os_path_join (os_path_join src c) i)
       (os_path_join (os_path_join (dest_root tr va s) c) i) w (Returned d) w1 →
     I (ghost (EvCopy s (os_path_join (os_path_join src c) i) d) w1).2) →
  ∀ w, I w → wp (split_class src tr va r c) (λ _ w', I w') w.
Proof.
  intros Hsplit Hmk Hcopy w HI. unfold split_class.
  apply wp_bind. unfold wp at 1. cbn [fst snd os_path_isdir].
  destruct (stat (fs w) (os_path_join src c)) as [[|rd data]|] eqn:Hdir;
    cbn [is_dir_node]; [|by apply wp_ret..].
  apply wp_bind. unfold wp at 1, os_listdir. rewrite Hdir. cbn [fst snd].
  set (imgs := filter _ _).
  apply wp_bind.
  destruct (train_test_split_seeded imgs r 42%Z) as (o & Ho & Hok).
  eapply wp_eq; [apply Ho|]. destruct o as [[t v]|e]; [|done].
  specialize (Hok t v eq_refl).
  assert (∀ i, i ∈ t ++ v → is_image i) as Himg.
  { intros i Hi. destruct Hok as (_ & _ & _ & Hperm). rewrite Hperm in Hi.
    unfold imgs in Hi. by apply list_elem_of_filter in Hi as [? _]. }
  set (J := λ w', I w' ∧ stat (fs w') (os_path_join src c) = Some Dir).
  assert (∀ s w1, J w1 →
    wp (os_makedirs (os_path_join (dest_root tr va s) c) true)
       (λ _ w2, J w2) w1) as Hmk'.
  { intros s w1 [HI1 Hd1]. eapply wp_mono; [apply os_makedirs_spec|].
    intros o w2 Hpost. split; [by eapply Hmk|].
    destruct Hpost as (_ & Hadd & _). by eapply adds_dirs_stat_Dir. }
  assert (∀ s l w1, (∀ i, i ∈ l → is_image i) → J w1 →
    wp (copy_images s (os_path_join src c) (os_path_join (dest_root tr va s) c) l)
       (λ _ w2, J w2) w1) as Hcp'.
  { intros s l w1 Hl HJ1. apply wp_for_each_inv; [done|].
    intros i w2 Hi [HI2 Hd2]. apply wp_bind.
    pose proof (shutil_copy_spec (os_path_join (os_path_join src c) i)
      (os_path_join (os_path_join (dest_root tr va s) c) i) w2) as Hpost.
    unfold wp at 1.
    destruct (shutil_copy _ _ w2) as [[d|e] w3] eqn:Hcp;
      eapply wp_elim in Hpost; try exact Hcp; cbn [fst snd];
      [|by rewrite Hpost].
    unfold wp. split; [by apply (Hcopy w2 s i d w3); auto|].
    rewrite ghost_fs. by eapply copy_post_stat_Dir. }
  assert (J (ghost (EvSplit c imgs t v) w).2) as HJ0.
  { split; [by apply Hsplit|by rewrite ghost_fs]. }
  apply wp_bind, wp_eq with (o := Returned tt) (w' := (ghost (EvSplit c imgs t v) w).2);
    [done|].
  apply wp_bind. eapply wp_mono; [by apply (Hmk' Train)|].
  intros [[]|e] w1 HJ1; [|by destruct HJ1].
  apply wp_bind. eapply wp_mono; [by apply (Hmk' Val)|].
  intros [[]|e] w2 HJ2; [|by destruct HJ2].
  apply wp_bind. eapply wp_mono; [apply (Hcp' Train t); [|done]|].
  { intros i Hi. apply Himg. set_solver. }
  intros [[]|e] w3 HJ3; [|by destruct HJ3].
  eapply wp_mono; [apply (Hcp' Val v); [|done]|].
  { intros i Hi. apply Himg. set_solver. }
  by intros _ w4 [? _].
Qed.

Lemma os_listdir_world dir w : (os_listdir dir w).2 = w.
Proof. unfold os_listdir. by destruct (stat (fs w) dir) as [[|??]|]. Qed.

Lemma os_listdir_Returned dir w l w' :
  os_listdir dir w = (Returned l, w') →
  stat (fs w) dir = Some Dir ∧ l = children (fs w) dir ∧ w' = w.
Proof.
  unfold os_listdir. destruct (stat (fs w) dir) as [[|??]|]; [|done..].
  by intros [= <- <-].
Qed.

Lemma count_entries_world d0 w : (count_entries d0 w).2 = w.
Proof.
  unfold count_entries.
  assert (wp (count_entries d0) (λ _ w', w' = w) w) as Hwp; [|exact Hwp].
  apply wp_bind. unfold wp at 1. rewrite os_listdir_world.
  destruct (os_listdir d0 w).1 as [ds|e]; [|done].
  apply wp_bind. eapply wp_mono; [apply (wp_map_M_inv (λ w', w' = w)); [done|]|].
  - intros d w1 _ ->. apply wp_bind. unfold wp at 1. rewrite os_listdir_world.
    by destruct (os_listdir _ w).1.
  - by intros [ns|e] w1 ->.
Qed.

Lemma split_data_steps (I : world → Prop) (src tr va : path) (r : Q) w0 :
  I w0 →
  (∀ c w imgs t v, c ∈ children (fs w0) src → I w →
     stat (fs w) (os_path_join src c) = Some Dir →
     imgs = filter (λ img, is_image img) (children (fs w) (os_path_join src c)) →
     split_ok imgs r t v →
     I (ghost (EvSplit c imgs t v) w).2) →
  (∀ c w s o w', c ∈ children (fs w0) src → I w →
     makedirs_post (os_path_join (dest_root tr va s) c) w o w' → I w') →
  (∀ c w s i d w1, c ∈ children (fs w0) src → I w → is_image i →
     stat (fs w) (os_path_join src c) = Some Dir →
     shutil_copy (os_path_join (os_path_join src c) i)
       (os_path_join (os_path_join (dest_root tr va s) c) i) w = (Returned d, w1) →
     copy_post (os_path_join (os_path_join src c) i)
       (os_path_join (os_path_join (dest_root tr va s) c) i) w (Returned d) w1 →
     I (ghost (EvCopy s (os_path_join (os_path_join src c) i) d) w1).2) →
  (∀ w line, I w → I (print line w).2) →
  wp (split_data src tr va r) (λ _ w', I w') w0.
Proof.
  intros HI Hsplit Hmk Hcopy Hprint. unfold split_data.
  apply wp_bind. unfold wp at 1. rewrite os_listdir_world.
  destruct (os_listdir src w0).1 as [classes|e] eqn:Hls; [|done].
  assert (classes = children (fs w0) src) as ->.
  { destruct (os_listdir src w0) as [o w'] eqn:Hrun. simpl in Hls. subst o.
    by apply os_listdir_Returned in Hrun as (_ & -> & _). }
  apply wp_bind. eapply wp_mono; [apply (wp_for_each_inv I); [done|]|].
  { intros c w1 Hc HI1. apply split_class_steps; eauto. }
  intros [[]|e] w1 HI1; [|done].
  apply wp_bind. unfold wp at 1. rewrite count_entries_world.
  destruct (count_entries tr w1).1 as [n_train|e]; [|done].
  apply wp_bind. unfold wp at 1.
  change (print ?l w1).1 with (@Returned unit tt).
  apply wp_bind. unfold wp at 1. rewrite count_entries_world.
  destruct (count_entries va _).1 as [n_val|e]; [|by apply Hprint].
  unfold wp. by apply Hprint, Hprint.
Qed.

Lemma evolves_ghost tr va w0 w ev :
  evolves tr va w0 w → evolves tr va w0 (ghost ev w).2.
Proof.
  intros Hev. eapply evolves_trans; [done|].
  repeat split; try done; [by apply prefix_app_r|apply fs_step_refl].
Qed.

Lemma evolves_print tr va w0 w line :
  evolves tr va w0 w → evolves tr va w0 (print line w).2.
Proof.
  intros Hev. eapply evolves_trans; [done|].
  repeat split; try done; [by apply prefix_app_r|apply fs_step_refl].
Qed.

Lemma evolves_makedirs (tr va : path) w0 w (s : subset) (c : string) o w' :
  evolves tr va w0 w →
  makedirs_post (os_path_join (dest_root tr va s) c) w o w' →
  evolves tr va w0 w'.
Proof.
  intros Hev ((Hg & Hout & Htr) & Hadd & _).
  eapply evolves_trans; [done|]. repeat split.
  - done.
  - by rewrite Hout.
  - by rewrite Htr.
  - by eapply adds_dirs_fs_step.
Qed.

Lemma copy_post_below (tr va src : path) (s : subset) (c i : string) w d w1 :
  copy_post src (os_path_join (os_path_join (dest_root tr va s) c) i) w
    (Returned d) w1 →
  d = dest_root tr va s ++ [c; i] ∨ d = dest_root tr va s ++ [c; i; basename src].
Proof.
  unfold os_path_join. intros ([[-> _]|[-> _]] & _); rewrite <-?app_assoc; auto.
Qed.

Lemma evolves_copy (tr va src : path) w0 w (s : subset) (c i : string) d w1 :
  evolves tr va w0 w →
  copy_post src (os_path_join (os_path_join (dest_root tr va s) c) i) w
    (Returned d) w1 →
  evolves tr va w0 w1.
Proof.
  intros Hev Hpost. pose proof (copy_post_below _ _ _ _ _ _ _ _ _ Hpost) as Hd.
  destruct Hpost as (_ & _ & _ & Hnd & _ & data & _ & ->).
  eapply evolves_trans; [done|]. repeat split; try done.
  rewrite fs_set_fs. destruct Hd as [-> | ->]; by apply insert_file_fs_step.
Qed.

Lemma split_class_evolves (src tr va : path) (r : Q) (c : string) w0 w :
  evolves tr va w0 w →
  wp (split_class src tr va r c) (λ _ w', evolves tr va w0 w') w.
Proof.
  intros Hev. apply split_class_steps; [| | |done].
  - intros. by apply evolves_ghost.
  - intros. by eapply evolves_makedirs.
  - intros. by eapply evolves_ghost, evolves_copy.
Qed.

Lemma split_data_evolves (src tr va : path) (r : Q) w0 :
  wp (split_data src tr va r) (λ _ w', evolves tr va w0 w') w0.
Proof.
  apply split_data_steps.
  - apply evolves_refl.
  - intros. by apply evolves_ghost.
  - intros. by eapply evolves_makedirs.
  - intros. by eapply evolves_ghost, evolves_copy.
  - intros. by apply evolves_print.
Qed.

(** Whatever a run does and however it ends, a path off the branches of
    the two destination roots keeps its entry. *)
Lemma split_data_frame (src tr va : path) (r : Q) w p :
  ¬ related p tr → ¬ related p va →
  fs (split_data src tr va r w).2 !! p = fs w !! p.
Proof.
  intros Htr Hva. destruct (split_data_evolves src tr va r w) as (_ & _ & _ & Hstep).
  by eapply fs_step_frame.
Qed.

(** ** The trace of a run that returns *)

Lemma copy_images_Returned (s : subset) (class_dir dest : path) imgs w w' :
  copy_images s class_dir dest imgs w = (Returned tt, w') →
  ∃ dsts, length dsts = length imgs ∧
          trace w' = trace w ++ copy_events s class_dir imgs dsts.
Proof.
  unfold copy_images. revert w. induction imgs as [|i imgs IH]; intros w Hrun.
  - injection Hrun as <-. exists []. by rewrite app_nil_r.
  - rewrite for_each_cons in Hrun.
    apply bind_Returned in Hrun as ([] & w1 & Hbody & Hrest).
    apply bind_Returned in Hbody as (d & w2 & Hcp & Hgh).
    pose proof (shutil_copy_spec (os_path_join class_dir i) (os_path_join dest i) w)
      as Hpost.
    eapply wp_elim in Hpost; [|exact Hcp].
    destruct Hpost as (_ & _ & _ & _ & _ & data & _ & ->).
    injection Hgh as <-. apply IH in Hrest as (dsts & Hlen & ->).
    exists (d :: dsts). split; [simpl; by rewrite Hlen|].
    simpl. by rewrite <-app_assoc.
Qed.

Lemma os_makedirs_Returned name exist_ok w w' :
  os_makedirs name exist_ok w = (Returned tt, w') →
  same_but_fs w w' ∧ adds_dirs name (fs w) (fs w') ∧ stat (fs w') name = Some Dir.
Proof.
  intros Hrun. pose proof (os_makedirs_spec name exist_ok w) as Hpost.
  eapply wp_elim in Hpost; [|exact Hrun].
  destruct Hpost as (? & ? & Hd). auto.
Qed.

Lemma split_class_Returned (src tr va : path) (r : Q) (c : string) w w' :
  split_class src tr va r c w = (Returned tt, w') →
  ∃ evs, trace w' = trace w ++ evs ∧ class_block src r c (fs w) evs.
Proof.
  unfold split_class, class_block, images_of. intros Hrun.
  apply bind_Returned in Hrun as (b & w1 & Hdir & Hrun).
  injection Hdir as Hb Hw. subst b w1.
  destruct (stat (fs w) (os_path_join src c)) as [[|rd data]|] eqn:Hst;
    cbn [is_dir_node] in Hrun;
    [|injection Hrun as <-; exists []; by rewrite app_nil_r..].
  apply bind_Returned in Hrun as (names & w1 & Hls & Hrun).
  apply os_listdir_Returned in Hls as (_ & -> & ->).
  apply bind_Returned in Hrun as ([t v] & w1 & Htts & Hrun).
  destruct (train_test_split_seeded
              (filter (λ img, is_image img) (children (fs w) (os_path_join src c)))
              r 42%Z) as (o & Ho & Hok).
  rewrite Ho in Htts. injection Htts as -> <-. specialize (Hok t v eq_refl).
  rename Ho into Hdet.
  apply bind_Returned in Hrun as ([] & w1 & Hgh & Hrun). injection Hgh as <-.
  apply bind_Returned in Hrun as ([] & w2 & Hmk1 & Hrun).
  apply os_makedirs_Returned in Hmk1 as ((_ & _ & Ht1) & _).
  apply bind_Returned in Hrun as ([] & w3 & Hmk2 & Hrun).
  apply os_makedirs_Returned in Hmk2 as ((_ & _ & Ht2) & _).
  apply bind_Returned in Hrun as ([] & w4 & Hcp1 & Hcp2).
  apply copy_images_Returned in Hcp1 as (dt & Hdt & Ht3).
  apply copy_images_Returned in Hcp2 as (dv & Hdv & Ht4).
  eexists. split; [|by exists t, v, dt, dv].
  rewrite Ht4, Ht3, Ht2, Ht1. cbn [trace]. by rewrite <-!app_assoc.
Qed.

Lemma class_loop_Returned (src tr va : path) (r : Q) classes w0 w' :
  for_each classes (split_class src tr va r) w0 = (Returned tt, w') →
  evolves tr va w0 w' ∧
  ∃ evss, trace w' = trace w0 ++ concat evss ∧
          Forall2 (λ c evs, ∃ wc, evolves tr va w0 wc ∧
                                  class_block src r c (fs wc) evs) classes evss.
Proof.
  intros Hrun.
  apply (for_each_Returned (λ done wt,
    evolves tr va w0 wt ∧
    ∃ evss, trace wt = trace w0 ++ concat evss ∧
            Forall2 (λ c evs, ∃ wc, evolves tr va w0 wc ∧
                                    class_block src r c (fs wc) evs) done evss)
    _ _ _ _ Hrun).
  - split; [apply evolves_refl|]. exists []. by rewrite app_nil_r.
  - intros done c rest w1 w2 _ (Hev & evss & Htr & Hall) Hbody. split.
    + pose proof (split_class_evolves src tr va r c w0 w1 Hev) as Hwp.
      by eapply wp_elim in Hwp.
    + apply split_class_Returned in Hbody as (evs & Htr2 & Hblock).
      exists (evss ++ [evs]). split.
      * rewrite Htr2, Htr, concat_app. simpl. by rewrite app_nil_r, app_assoc.
      * apply Forall2_app; [done|]. constructor; [|done]. eauto.
Qed.

Lemma count_each_Returned (d0 : path) ds w ns w' :
  map_M (λ d, bind (os_listdir (os_path_join d0 d)) (λ l, ret (length l))) ds w
    = (Returned ns, w') →
  Forall2 (λ d k, stat (fs w) (os_path_join d0 d) = Some Dir ∧
                  k = length (children (fs w) (os_path_join d0 d))) ds ns.
Proof.
  revert ns w'. induction ds as [|d ds IH]; intros ns w' Hmap.
  - injection Hmap as <- _. constructor.
  - simpl in Hmap. apply bind_Returned in Hmap as (k & w2 & Hk & Hmap).
    apply bind_Returned in Hk as (l & w3 & Hls & Hret).
    apply os_listdir_Returned in Hls as (Hst & -> & ->).
    injection Hret as Hk Hw. subst k w2.
    apply bind_Returned in Hmap as (ns' & w3 & Hmap & Hret).
    injection Hret as Hns Hw. subst ns. constructor; [done|]. by eapply IH.
Qed.

Lemma count_entries_Returned d0 w n w' :
  count_entries d0 w = (Returned n, w') → w' = w ∧ entry_counts (fs w) d0 n.
Proof.
  intros Hrun. pose proof (count_entries_world d0 w) as Hw.
  rewrite Hrun in Hw. simpl in Hw. subst w'. split; [done|].
  unfold count_entries in Hrun.
  apply bind_Returned in Hrun as (ds & w1 & Hls & Hrun).
  apply os_listdir_Returned in Hls as (Hst & -> & ->). split; [done|].
  apply bind_Returned in Hrun as (ns & w1 & Hmap & Hret).
  injection Hret as Hn Hw. subst n. exists ns. split; [done|].
  by eapply count_each_Returned.
Qed.

Lemma class_loop_stdout (src tr va : path) (r : Q) classes w0 :
  wp (for_each classes (split_class src tr va r))
     (λ _ w', stdout w' = stdout w0) w0.
Proof.
  apply (wp_for_each_inv (λ w', stdout w' = stdout w0)); [done|].
  intros c w1 _ Hout. apply split_class_steps; [| | |done].
  - by intros.
  - intros w s o w' Hw ((_ & -> & _) & _). done.
  - intros w s i d w2 Hw _ _ _ (_ & _ & _ & _ & _ & data & _ & ->). done.
Qed.

Lemma split_data_Returned (src tr va : path) (r : Q) w0 w' :
  split_data src tr va r w0 = (Returned tt, w') →
  stat (fs w0) src = Some Dir ∧
  evolves tr va w0 w' ∧
  (∃ evss, trace w' = trace w0 ++ concat evss ∧
           Forall2 (λ c evs, ∃ wc, evolves tr va w0 wc ∧
                                   class_block src r c (fs wc) evs)
             (children (fs w0) src) evss) ∧
  ∃ n_train n_val,
    entry_counts (fs w') tr n_train ∧
    entry_counts (fs w') va n_val ∧
    stdout w' = stdout w0 ++
      ["Data split complete. Training images: " +:+ pretty n_train;
       "Validation images: " +:+ pretty n_val].
Proof.
  intros Hrun.
  assert (evolves tr va w0 w') as Hev.
  { pose proof (split_data_evolves src tr va r w0) as Hwp.
    by eapply wp_elim in Hwp. }
  unfold split_data in Hrun.
  apply bind_Returned in Hrun as (classes & w1 & Hls & Hrun).
  apply os_listdir_Returned in Hls as (Hst & -> & ->).
  apply bind_Returned in Hrun as ([] & w1 & Hloop & Hrun).
  pose proof (class_loop_stdout src tr va r (children (fs w0) src) w0) as Hout.
  eapply wp_elim in Hout; [|exact Hloop]. simpl in Hout.
  apply class_loop_Returned in Hloop as (_ & evss & Htr & Hall).
  apply bind_Returned in Hrun as (n_train & w2 & Hc1 & Hrun).
  apply count_entries_Returned in Hc1 as (-> & Hn1).
  apply bind_Returned in Hrun as ([] & w2 & Hp1 & Hrun). injection Hp1 as Hw2.
  subst w2.
  apply bind_Returned in Hrun as (n_val & w2 & Hc2 & Hrun).
  apply count_entries_Returned in Hc2 as (-> & Hn2).
  injection Hrun as Hw'. subst w'.
  split; [done|]. split; [done|]. split; [by exists evss|].
  exists n_train, n_val. split; [done|]. split; [done|].
  cbn [stdout]. by rewrite Hout, <-app_assoc.
Qed.

(** ** The events of a run, however it ends *)

Lemma new_events_app w w' evs : trace w' = trace w ++ evs → new_events w w' = evs.
Proof. unfold new_events. intros ->. by rewrite drop_app_length. Qed.

Lemma new_events_refl w : new_events w w = [].
Proof. apply new_events_app. by rewrite app_nil_r. Qed.

Lemma new_events_ghost tr va w0 w ev :
  evolves tr va w0 w →
  new_events w0 (ghost ev w).2 = new_events w0 w ++ [ev].
Proof.
  intros (_ & _ & [evs Hevs] & _). rewrite (new_events_app _ _ _ Hevs).
  apply new_events_app. rewrite ghost_trace, Hevs. by rewrite app_assoc.
Qed.

Lemma new_events_same_trace w0 w w' :
  trace w' = trace w → new_events w0 w' = new_events w0 w.
Proof. unfold new_events. by intros ->. Qed.

(** A property of events that holds of each split and of each copy when
    it is recorded holds of every event of the run. *)
Lemma split_data_events (P : event → Prop) (src tr va : path) (r : Q) w0 :
  (∀ c imgs t v w, c ∈ children (fs w0) src → evolves tr va w0 w →
     stat (fs w) (os_path_join src c) = Some Dir →
     imgs = images_of (fs w) (os_path_join src c) →
     split_ok imgs r t v →
     P (EvSplit c imgs t v)) →
  (∀ c s i d w w1, c ∈ children (fs w0) src → evolves tr va w0 w →
     is_image i →
     stat (fs w) (os_path_join src c) = Some Dir →
     shutil_copy (os_path_join (os_path_join src c) i)
       (os_path_join (os_path_join (dest_root tr va s) c) i) w = (Returned d, w1) →
     copy_post (os_path_join (os_path_join src c) i)
       (os_path_join (os_path_join (dest_root tr va s) c) i) w (Returned d) w1 →
     P (EvCopy s (os_path_join (os_path_join src c) i) d)) →
  ∀ ev, ev ∈ new_events w0 (split_data src tr va r w0).2 → P ev.
Proof.
  intros Hsplit Hcopy.
  cut (wp (split_data src tr va r)
         (λ _ w', evolves tr va w0 w' ∧ ∀ ev, ev ∈ new_events w0 w' → P ev) w0).
  { by intros [_ ?]. }
  apply split_data_steps.
  - split; [apply evolves_refl|]. rewrite new_events_refl. set_solver.
  - intros c w imgs t v Hc [Hev HP] Hdir Himgs Hok.
    split; [by apply evolves_ghost|].
    rewrite (new_events_ghost tr va) by done. intros ev Hin.
    apply elem_of_app in Hin as [Hin|Hin]; [by apply HP|].
    apply list_elem_of_singleton in Hin as ->. by apply (Hsplit c imgs t v w).
  - intros c w s o w' Hc [Hev HP] Hpost. split; [by eapply evolves_makedirs|].
    destruct Hpost as ((_ & _ & Htr) & _).
    by rewrite (new_events_same_trace _ _ _ Htr).
  - intros c w s i d w1 Hc [Hev HP] Hi Hdir Hcp Hpost.
    assert (evolves tr va w0 w1) as Hev1 by by eapply evolves_copy.
    split; [by apply evolves_ghost|].
    rewrite (new_events_ghost tr va) by done. intros ev Hin.
    apply elem_of_app in Hin as [Hin|Hin].
    + apply HP. destruct Hpost as (_ & _ & _ & _ & _ & data & _ & ->).
      by rewrite (new_events_same_trace w0 w) in Hin.
    + apply list_elem_of_singleton in Hin as ->. by apply (Hcopy c s i d w w1).
  - intros w line [Hev HP]. split; [by apply evolves_print|done].
Qed.

(** ** The source tree under separated destinations *)

Lemma source_frame (src tr va : path) (m m' : filesystem) p :
  separated src tr → separated src va → fs_step tr va m m' →
  src `prefix_of` p → m' !! p = m !! p.
Proof.
  intros Htr Hva Hstep Hp.
  eapply fs_step_frame; [done|by eapply separated_related..].
Qed.

Lemma source_stat (src tr va : path) (m m' : filesystem) p :
  separated src tr → separated src va → fs_step tr va m m' →
  src `prefix_of` p → stat m' p = stat m p.
Proof.
  intros Htr Hva Hstep Hp. destruct p as [|x p]; [done|].
  simpl. by apply (source_frame src tr va).
Qed.

Lemma source_children (src tr va : path) (m m' : filesystem) p :
  separated src tr → separated src va → fs_step tr va m m' →
  src `prefix_of` p → children m' p = children m p.
Proof.
  intros Htr Hva Hstep Hp. apply children_ext. intros n.
  rewrite (source_frame src tr va m m'); [done..|].
  etrans; [done|]. by apply prefix_app_r.
Qed.

Lemma source_images (src tr va : path) (m m' : filesystem) (c : string) :
  separated src tr → separated src va → fs_step tr va m m' →
  images_of m' (os_path_join src c) = images_of m (os_path_join src c).
Proof.
  intros Htr Hva Hstep. unfold images_of.
  rewrite (source_children src tr va m m'); [done..|]. by apply prefix_app_r.
Qed.

Lemma class_block_frame (src tr va : path) (r : Q) (c : string)
    (m m' : filesystem) evs :
  separated src tr → separated src va → fs_step tr va m m' →
  class_block src r c m' evs → class_block src r c m evs.
Proof.
  intros Htr Hva Hstep. unfold class_block.
  rewrite (source_images src tr va m m') by done.
  rewrite (source_stat src tr va m m'); [done..|]. by apply prefix_app_r.
Qed.

(** With the destinations apart from the source, the events of a run that
    returns are, class by class, those of the listing the run started on. *)
Lemma split_data_blocks (src tr va : path) (r : Q) w w' :
  separated src tr → separated src va →
  split_data src tr va r w = (Returned tt, w') →
  ∃ evss, new_events w w' = concat evss ∧
          Forall2 (λ c evs, class_block src r c (fs w) evs)
            (children (fs w) src) evss.
Proof.
  intros Htr Hva Hrun.
  apply split_data_Returned in Hrun as (_ & _ & (evss & Htrace & Hall) & _).
  exists evss. split; [by apply new_events_app|].
  eapply Forall2_impl; [exact Hall|].
  intros c evs (wc & (_ & _ & _ & Hstep) & Hblock).
  by apply (class_block_frame src tr va r c (fs w) (fs wc)).
Qed.


(** ** [str.endswith] *)







(** * The claims about [split_data] *)

(** C5.  [split_data] copies and never moves or deletes.  A path of the
    source tree keeps its entry through a run, however the run ends, when
    it is off the branches of the two destination roots (only the
    destination directories are modified); it is never removed; and when
    the train and validation directories lie apart from the source
    directory, every path of the source tree holds after the run the entry
    it held before: the same entries with the same contents. *)
Theorem split_data_preserves_source (src tr va : path) (r : Q) w p :
  src `prefix_of` p →
  (¬ related p tr → ¬ related p va →
   fs (split_data src tr va r w).2 !! p = fs w !! p) ∧
  (is_Some (fs w !! p) → is_Some (fs (split_data src tr va r w).2 !! p)) ∧
  (separated src tr → separated src va →
   fs (split_data src tr va r w).2 !! p = fs w !! p).
Proof.
  intros Hp. split; [apply split_data_frame|]. split.
  - destruct (split_data_evolves src tr va r w) as (_ & _ & _ & Hstep).
    by eapply fs_step_is_Some.
  - intros Htr Hva. apply split_data_frame; by eapply separated_related.
Qed.




(** ** Determinism *)




(** *** Insensitivity to the generator, the console and the trace *)























(** ** Copies *)

Lemma dest_paths_inj (tr va : path) (s s' : subset) (k k' : path) :
  separated tr va →
  dest_root tr va s ++ k = dest_root tr va s' ++ k' → s = s' ∧ k = k'.
Proof.
  intros Hsep Heq.
  assert (∀ a b (x y : path), a ++ x = b ++ y → related a b) as Hrel.
  { intros a b x y Hab.
    destruct (prefix_weak_total a b (a ++ x)) as [?|?];
      [by apply prefix_app_r|rewrite Hab; by apply prefix_app_r|by left|by right]. }
  destruct s, s'; simpl in *.
  - by apply app_inv_head in Heq.
  - by apply Hrel in Heq.
  - apply Hrel in Heq. destruct Hsep. unfold related in *. tauto.
  - by apply app_inv_head in Heq.
Qed.

Lemma basename_join (dir : path) (n : string) : basename (os_path_join dir n) = n.
Proof. apply last_snoc. Qed.

Lemma read_bytes_Some (m : filesystem) (d : path) (k : string) data :
  m !! (d ++ [k]) = Some (File true data) → read_bytes m (d ++ [k]) = Some data.
Proof. unfold read_bytes. rewrite stat_snoc. by intros ->. Qed.

(** Every copy recorded so far reads back, at its destination, the bytes
    its source held when the run started. *)
Lemma split_data_copies_intact (src tr va : path) (r : Q) w0 :
  separated src tr → separated src va → separated tr va →
  wp (split_data src tr va r)
    (λ _ w', ∀ s p d, EvCopy s p d ∈ new_events w0 w' →
       ∃ c i data,
         p = src ++ [c; i] ∧
         (d = dest_root tr va s ++ [c; i] ∨ d = dest_root tr va s ++ [c; i; i]) ∧
         fs w0 !! p = Some (File true data) ∧
         fs w' !! d = Some (File true data)) w0.
Proof.
  intros Htr Hva Htv.
  set (J := λ w', evolves tr va w0 w' ∧
    ∀ s p d, EvCopy s p d ∈ new_events w0 w' →
       ∃ c i data,
         p = src ++ [c; i] ∧
         (d = dest_root tr va s ++ [c; i] ∨ d = dest_root tr va s ++ [c; i; i]) ∧
         fs w0 !! p = Some (File true data) ∧
         fs w' !! d = Some (File true data)).
  cut (wp (split_data src tr va r) (λ _ w', J w') w0).
  { intros HJ. by destruct HJ. }
  apply split_data_steps.
  - split; [apply evolves_refl|]. rewrite new_events_refl. set_solver.
  - intros c w imgs t v _ [Hev HJ] _ _ _. split; [by apply evolves_ghost|].
    intros s p d. rewrite (new_events_ghost tr va) by done.
    rewrite elem_of_app, list_elem_of_singleton. intros [Hin|?]; [|done].
    rewrite ghost_fs. by apply HJ.
  - intros c w s o w' _ [Hev HJ] Hpost. split; [by eapply evolves_makedirs|].
    destruct Hpost as ((_ & _ & Htrace) & Hadd & _).
    intros s' p d. rewrite (new_events_same_trace _ _ _ Htrace). intros Hin.
    destruct (HJ _ _ _ Hin) as (c' & i & data & Hp & Hd & H0 & Hw).
    exists c', i, data. repeat split; try done.
    destruct (Hadd d) as [->|(? & _)]; congruence.
  - intros c w s i d w1 Hc [Hev HJ] Hi Hdir _ Hpost.
    assert (evolves tr va w0 w1) as Hev1 by by eapply evolves_copy.
    pose proof (copy_post_below _ _ _ _ _ _ _ _ _ Hpost) as Hd.
    rewrite basename_join in Hd.
    destruct Hpost as (_ & _ & _ & _ & _ & data & Hsrc & ->).
    assert (os_path_join (os_path_join src c) i = src ++ [c; i]) as Hp.
    { unfold os_path_join. by rewrite <-app_assoc. }
    rewrite Hp in *.
    assert (fs w0 !! (src ++ [c; i]) = Some (File true data)) as Hsrc0.
    { rewrite <-Hsrc. symmetry. destruct Hev as (_ & _ & _ & Hstep).
      apply (source_frame src tr va); [done..|]. by apply prefix_app_r. }
    split; [by apply evolves_ghost|].
    intros s' p' d'. rewrite (new_events_ghost tr va) by done.
    rewrite (new_events_same_trace w0 w) by done.
    rewrite elem_of_app, list_elem_of_singleton, ghost_fs, fs_set_fs.
    intros [Hin|[= -> -> ->]].
    + destruct (HJ _ _ _ Hin) as (c' & i' & data' & -> & Hd' & H0 & Hw).
      exists c', i', data'. repeat split; try done.
      destruct (decide (d' = d)) as [->|Hne]; [|by rewrite lookup_insert_ne].
      rewrite lookup_insert_eq.
      assert (s' = s ∧ c' = c ∧ i' = i) as (-> & -> & ->).
      { destruct Hd as [Hd|Hd], Hd' as [Hd'|Hd']; rewrite Hd in Hd';
          apply dest_paths_inj in Hd' as [-> [=]]; by subst. }
      congruence.
    + exists c, i, data. repeat split; try done. by rewrite lookup_insert_eq.
  - intros w line [Hev HJ]. split; [by apply evolves_print|done].
Qed.

(** A copy that was recorded was made by a call of [shutil.copy] in a
    world of the run, and read back the source's bytes right after it. *)
Lemma split_data_copies_made (src tr va : path) (r : Q) w s p d :
  EvCopy s p d ∈ new_events w (split_data src tr va r w).2 →
  ∃ dst w1 w2 data,
    evolves tr va w w1 ∧ shutil_copy p dst w1 = (Returned d, w2) ∧
    read_bytes (fs w1) p = Some data ∧
    read_bytes (fs w2) p = Some data ∧
    read_bytes (fs w2) d = Some data.
Proof.
  intros Hin.
  apply (split_data_events (λ ev, match ev with
    | EvCopy _ p d =>
        ∃ dst w1 w2 data,
          evolves tr va w w1 ∧ shutil_copy p dst w1 = (Returned d, w2) ∧
          read_bytes (fs w1) p = Some data ∧
          read_bytes (fs w2) p = Some data ∧
          read_bytes (fs w2) d = Some data
    | EvSplit _ _ _ _ => True
    end) src tr va r w) in Hin; [done..|].
  intros c s' i d' w1 w2 _ Hev _ _ Hcp (_ & Hne & Hd & _ & _ & data & Hsrc & ->).
  eexists _, w1, _, data. split; [done|]. split; [exact Hcp|].
  assert (∀ m : filesystem, m !! os_path_join (os_path_join src c) i
            = Some (File true data) →
          read_bytes m (os_path_join (os_path_join src c) i) = Some data)
    as Hread by (intros m; apply read_bytes_Some).
  split; [by apply Hread|]. rewrite fs_set_fs. split.
  - apply Hread. by rewrite lookup_insert_ne.
  - unfold read_bytes. rewrite stat_nonempty by done. by rewrite lookup_insert_eq.
Qed.

(** C4.  Every copy [split_data] makes round-trips: the destination, read
    right after the copy, yields exactly the bytes of the source file; and
    with the three directories apart from one another this is still so at
    the end of the run, however it ends. *)
Theorem split_data_copies_roundtrip (src tr va : path) (r : Q) w s p d :
  EvCopy s p d ∈ new_events w (split_data src tr va r w).2 →
  (∃ dst w1 w2 data,
     evolves tr va w w1 ∧ shutil_copy p dst w1 = (Returned d, w2) ∧
     read_bytes (fs w1) p = Some data ∧
     read_bytes (fs w2) p = Some data ∧
     read_bytes (fs w2) d = Some data) ∧
  (separated src tr → separated src va → separated tr va →
   ∃ data,
     read_bytes (fs w) p = Some data ∧
     read_bytes (fs (split_data src tr va r w).2) p = Some data ∧
     read_bytes (fs (split_data src tr va r w).2) d = Some data).
Proof.
  intros Hin. split; [by apply (split_data_copies_made src tr va r w s p d)|].
  intros Htr Hva Htv.
  destruct (split_data_copies_intact src tr va r w Htr Hva Htv _ _ _ Hin)
    as (c & i & data & -> & Hd & Hsrc & Hdst).
  assert (∀ (m : filesystem) (a : path) (x y : string) (k : path),
    m !! (a ++ x :: y :: k) = Some (File true data) →
    read_bytes m (a ++ x :: y :: k) = Some data) as Hread.
  { intros m a x y k. destruct (exists_last (l := x :: y :: k)) as (l & z & Hl);
      [done|]. rewrite Hl, app_assoc. apply read_bytes_Some. }
  exists data. split; [by apply Hread|]. split.
  - apply Hread. rewrite split_data_frame; [done|..];
      apply (separated_related src); by try apply prefix_app_r.
  - destruct Hd as [-> | ->]; by apply Hread.
Qed.

(** ** Errors *)





(** ** The reported counts *)

Lemma dest_other_path (tr va : path) (s s' : subset) (k k' : path) :
  separated tr va → s ≠ s' →
  dest_root tr va s ++ k ≠ dest_root tr va s' ++ k'.
Proof. intros Hsep Hne Heq. by apply dest_paths_inj in Heq as [? _]. Qed.

Lemma adds_dirs_two_below (tr va : path) (s s' : subset) (c c' i : string)
    (m m' : filesystem) :
  separated tr va →
  adds_dirs (os_path_join (dest_root tr va s') c') m m' →
  m' !! (dest_root tr va s ++ [c; i]) = m !! (dest_root tr va s ++ [c; i]).
Proof.
  intros Hsep Hadd.
  destruct (Hadd (dest_root tr va s ++ [c; i])) as [?|(_ & _ & Hpre & _)]; [done|].
  exfalso. destruct Hpre as [k Hk]. unfold os_path_join in Hk.
  rewrite <-app_assoc in Hk. apply dest_paths_inj in Hk as [-> Hk]; [|done].
  by destruct k.
Qed.

(** The ledger of one destination [s], when nothing lay below its root at
    the start: an entry two levels below the root is a file and has its
    copy recorded, and every recorded copy into [s] wrote such an entry,
    named after its source, in a directory that exists. *)
Lemma split_data_ledger (src tr va : path) (r : Q) (s : subset) w0 :
  separated tr va → fresh (dest_root tr va s) (fs w0) →
  wp (split_data src tr va r) (λ _ w',
    (∀ c i, is_Some (fs w' !! (dest_root tr va s ++ [c; i])) →
       EvCopy s (src ++ [c; i]) (dest_root tr va s ++ [c; i])
         ∈ new_events w0 w') ∧
    (∀ p dst, EvCopy s p dst ∈ new_events w0 w' →
       ∃ c i, p = src ++ [c; i] ∧ dst = dest_root tr va s ++ [c; i] ∧
              is_Some (fs w' !! (dest_root tr va s ++ [c])) ∧
              is_Some (fs w' !! dst))) w0.
Proof.
  intros Htv Hfresh.
  set (K := λ w', evolves tr va w0 w' ∧
    (∀ c i, is_Some (fs w' !! (dest_root tr va s ++ [c; i])) →
       fs w' !! (dest_root tr va s ++ [c; i]) ≠ Some Dir ∧
       EvCopy s (src ++ [c; i]) (dest_root tr va s ++ [c; i])
         ∈ new_events w0 w') ∧
    (∀ p dst, EvCopy s p dst ∈ new_events w0 w' →
       ∃ c i, p = src ++ [c; i] ∧ dst = dest_root tr va s ++ [c; i] ∧
              is_Some (fs w' !! (dest_root tr va s ++ [c])) ∧
              is_Some (fs w' !! dst))).
  cut (wp (split_data src tr va r) (λ _ w', K w') w0).
  { intros (_ & Ha & Hb). split; [|done]. intros c i Hci. by apply Ha. }
  apply split_data_steps.
  - split; [apply evolves_refl|]. rewrite new_events_refl. split; [|set_solver].
    intros c i [n Hn]. rewrite Hfresh in Hn; [done|by apply prefix_app_r|].
    intros Heq. by apply (f_equal length) in Heq; rewrite length_app in Heq; simpl in *; lia.
  - intros c w imgs t v _ (Hev & Ha & Hb) _ _ _.
    split; [by apply evolves_ghost|].
    rewrite (new_events_ghost tr va) by done. rewrite ghost_fs.
    split.
    + intros c' i Hci. destruct (Ha c' i Hci). split; [done|apply elem_of_app; by left].
    + intros p dst. rewrite elem_of_app, list_elem_of_singleton.
      intros [Hin|?]; [by apply Hb|done].
  - intros c w s' o w' _ (Hev & Ha & Hb) Hpost.
    split; [by eapply evolves_makedirs|].
    destruct Hpost as ((_ & _ & Htrace) & Hadd & _).
    rewrite (new_events_same_trace _ _ _ Htrace). split.
    + intros c' i. rewrite (adds_dirs_two_below tr va s s' c' c i (fs w) (fs w')) by done.
      apply Ha.
    + intros p dst Hin. destruct (Hb p dst Hin) as (c' & i & -> & -> & Hd & Hf).
      exists c', i. repeat split; try done.
      * destruct Hd as [n Hn]. destruct (Hadd (dest_root tr va s ++ [c']))
          as [->|(? & _)]; [eauto|congruence].
      * destruct Hf as [n Hn]. destruct (Hadd (dest_root tr va s ++ [c'; i]))
          as [->|(? & _)]; [eauto|congruence].
  - intros c w s' i d w1 Hc (Hev & Ha & Hb) Hi Hdir _ Hpost.
    assert (evolves tr va w0 w1) as Hev1 by by eapply evolves_copy.
    pose proof (copy_post_below _ _ _ _ _ _ _ _ _ Hpost) as Hd.
    rewrite basename_join in Hd.
    destruct Hpost as (Hwhich & _ & _ & _ & Hparent & data & Hsrc & ->).
    assert (os_path_join (os_path_join src c) i = src ++ [c; i]) as Hp.
    { unfold os_path_join. by rewrite <-app_assoc. }
    assert (os_path_join (os_path_join (dest_root tr va s') c) i
            = dest_root tr va s' ++ [c; i]) as Hdst.
    { unfold os_path_join. by rewrite <-app_assoc. }
    rewrite Hp, Hdst in *.
    split; [by apply evolves_ghost|].
    rewrite (new_events_ghost tr va) by done.
    rewrite (new_events_same_trace w0 w) by done.
    rewrite ghost_fs, fs_set_fs.
    destruct (decide (s' = s)) as [->|Hss].
    + assert (d = dest_root tr va s ++ [c; i]) as ->.
      { destruct Hwhich as [[-> _]|[_ Hisdir]]; [done|].
        rewrite stat_nonempty in Hisdir by by destruct (dest_root tr va s).
        destruct (Ha c i) as [Hnd _]; [by rewrite Hisdir|done]. }
      split.
      * intros c' i'.
        destruct (decide (dest_root tr va s ++ [c'; i'] = dest_root tr va s ++ [c; i]))
          as [Heq|Hne].
        -- apply app_inv_head in Heq as [= -> ->]. intros _.
           rewrite lookup_insert_eq.
           split; [done|apply elem_of_app; right; by left].
        -- rewrite lookup_insert_ne by done. intros Hci.
           destruct (Ha c' i' Hci). split; [done|apply elem_of_app; by left].
      * intros p dst. rewrite elem_of_app, list_elem_of_singleton.
        intros [Hin|[= -> ->]].
        -- destruct (Hb p dst Hin) as (c' & i' & -> & -> & Hdd & Hf).
           exists c', i'. repeat split; try done.
           ++ rewrite lookup_insert_ne; [done|]. intros Heq.
              apply app_inv_head in Heq. done.
           ++ destruct (decide (dest_root tr va s ++ [c; i]
                                = dest_root tr va s ++ [c'; i'])) as [<-|Hne];
                [by rewrite lookup_insert_eq|by rewrite lookup_insert_ne].
        -- exists c, i. repeat split; try done.
           ++ rewrite lookup_insert_ne.
              ** replace (dirname (dest_root tr va s ++ [c; i]))
                   with (dest_root tr va s ++ [c]) in Hparent.
                 { rewrite stat_snoc in Hparent. by rewrite Hparent. }
                 change [c; i] with ([c] ++ [i]). rewrite app_assoc.
                 symmetry. apply removelast_snoc.
              ** intros Heq. apply app_inv_head in Heq. done.
           ++ by rewrite lookup_insert_eq.
    + assert (∀ k, d ≠ dest_root tr va s ++ k) as Hoff.
      { intros k. destruct Hd as [-> | ->]; by apply dest_other_path. }
      split.
      * intros c' i'. rewrite lookup_insert_ne by done. intros Hci.
        destruct (Ha c' i' Hci). split; [done|apply elem_of_app; by left].
      * intros p dst. rewrite elem_of_app, list_elem_of_singleton.
        intros [Hin|[= -> -> ->]]; [|done].
        destruct (Hb p dst Hin) as (c' & i' & -> & -> & Hdd & Hf).
        exists c', i'. repeat split; try done; by rewrite lookup_insert_ne.
  - intros w line (Hev & Ha & Hb). split; [by apply evolves_print|done].
Qed.

Lemma copied_into_app s evs1 evs2 :
  copied_into s (evs1 ++ evs2) = copied_into s evs1 ++ copied_into s evs2.
Proof. apply omap_app. Qed.

Lemma copied_into_copy_events (s s' : subset) (class_dir : path) imgs dsts :
  length dsts = length imgs →
  copied_into s (copy_events s' class_dir imgs dsts)
  = if decide (s' = s) then os_path_join class_dir <$> imgs else [].
Proof.
  unfold copied_into, copy_events. revert dsts.
  induction imgs as [|i imgs IH]; intros [|d dsts] Hlen; simplify_eq/=.
  - by case_decide.
  - rewrite IH by done. by case_decide.
Qed.

Lemma elem_of_copied_into s evs p :
  p ∈ copied_into s evs ↔ ∃ d, EvCopy s p d ∈ evs.
Proof.
  unfold copied_into. rewrite list_elem_of_omap. split.
  - intros ([c imgs t v|s' p' d] & Hin & Hev); [done|].
    case_decide; simplify_eq. eauto.
  - intros [d Hin]. exists (EvCopy s p d). split; [done|]. by case_decide.
Qed.

#[local] Instance os_path_join_inj dir : Inj (=) (=) (os_path_join dir).
Proof. intros x y Hxy. apply app_inv_head in Hxy. by injection Hxy. Qed.

(** The sources copied into one destination by a run that returns are
    pairwise distinct: a class is handled once and lists a name once. *)
Lemma copied_into_blocks_NoDup (src : path) (r : Q) (m : filesystem) (s : subset)
    classes evss :
  Forall2 (λ c evs, class_block src r c m evs) classes evss →
  NoDup classes →
  NoDup (copied_into s (concat evss)) ∧
  ∀ p, p ∈ copied_into s (concat evss) → ∃ c i, c ∈ classes ∧ p = src ++ [c; i].
Proof.
  induction 1 as [|c evs classes evss Hblock _ IH]; intros Hnd.
  { split; [constructor|]. intros p Hp. by apply elem_of_nil in Hp. }
  apply NoDup_cons in Hnd as [Hc Hnd]. destruct (IH Hnd) as [IHnd IHin].
  simpl. rewrite copied_into_app.
  assert (NoDup (copied_into s evs) ∧
          ∀ p, p ∈ copied_into s evs → ∃ i, p = src ++ [c; i]) as [Hnd1 Hin1].
  { unfold class_block in Hblock.
    destruct (stat m (os_path_join src c)) as [[|??]|]; [|subst evs..];
      [|split; [constructor|intros p Hp; by apply elem_of_nil in Hp]..].
    destruct Hblock as (t & v & dt & dv & -> & Hdt & Hdv & (_ & _ & _ & Hperm) & _).
    assert (NoDup (t ++ v)) as Htv.
    { rewrite Hperm. apply NoDup_filter, NoDup_children. }
    apply NoDup_app in Htv as (Ht & _ & Hv).
    change (?x :: ?l1 ++ ?l2) with ([x] ++ l1 ++ l2).
    rewrite !copied_into_app, !copied_into_copy_events by done. simpl.
    assert (∀ i, os_path_join (os_path_join src c) i = src ++ [c; i]) as Hjoin.
    { intros i. unfold os_path_join. by rewrite <-app_assoc. }
    destruct s; repeat case_decide; try done; simpl; rewrite ?app_nil_r.
    - split; [by apply (NoDup_fmap_2 _)|].
      intros p (i & -> & _)%list_elem_of_fmap. eauto.
    - split; [by apply (NoDup_fmap_2 _)|].
      intros p (i & -> & _)%list_elem_of_fmap. eauto. }
  split.
  - apply NoDup_app. split; [done|]. split; [|done].
    intros p Hp1 Hp2. destruct (Hin1 p Hp1) as [i ->].
    destruct (IHin _ Hp2) as (c' & i' & Hc' & Heq).
    apply app_inv_head in Heq. by simplify_eq.
  - intros p [Hp|Hp]%elem_of_app.
    + destruct (Hin1 p Hp) as [i ->]. exists c, i. split; [by left|done].
    + destruct (IHin p Hp) as (c' & i & Hc' & ->). exists c', i.
      split; [by right|done].
Qed.

Lemma entry_counts_length (m : filesystem) (d : path) n :
  entry_counts m d n →
  n = length (children m d ≫= λ x, (λ i, d ++ [x; i]) <$> children m (d ++ [x])).
Proof.
  intros (_ & ns & -> & Hall).
  induction Hall as [|x k xs ns [_ ->] _ IH]; [done|].
  rewrite bind_cons, length_app, length_fmap. simpl. by rewrite IH.
Qed.

(** With nothing below a destination root at the start, what
    [count_entries] finds there after a run that returns is the number of
    copies the run made into it. *)
Lemma entry_counts_copies (src tr va : path) (r : Q) (s : subset) w w' n :
  separated src tr → separated src va → separated tr va →
  fresh (dest_root tr va s) (fs w) →
  split_data src tr va r w = (Returned tt, w') →
  entry_counts (fs w') (dest_root tr va s) n →
  n = length (copied_into s (new_events w w')).
Proof.
  intros Htr Hva Htv Hfresh Hrun Hcount.
  pose proof (split_data_ledger src tr va r s w Htv Hfresh) as Hledger.
  eapply wp_elim in Hledger; [|exact Hrun]. destruct Hledger as [Ha Hb].
  destruct (split_data_blocks _ _ _ _ _ _ Htr Hva Hrun) as (evss & Hnew & Hall).
  destruct (copied_into_blocks_NoDup src r (fs w) s _ _ Hall (NoDup_children _ _))
    as [Hnd _].
  rewrite <-Hnew in Hnd. clear Hall Hnew evss.
  rewrite (entry_counts_length _ _ _ Hcount).
  set (d := dest_root tr va s) in *.
  set (f := λ p : path, d ++ drop (length src) p).
  assert (∀ c i, f (src ++ [c; i]) = d ++ [c; i]) as Hf.
  { intros c i. unfold f. by rewrite drop_app_length. }
  rewrite <-(length_fmap f (copied_into s (new_events w w'))).
  apply Permutation_length, NoDup_Permutation.
  - apply NoDup_bind; [| |apply NoDup_children].
    + intros x1 x2 y _ _ (i1 & -> & _)%list_elem_of_fmap
        (i2 & Heq & _)%list_elem_of_fmap.
      apply app_inv_head in Heq. by simplify_eq.
    + intros x _. apply NoDup_fmap_2_strong; [|apply NoDup_children].
      intros i1 i2 _ _ Heq. apply app_inv_head in Heq. by simplify_eq.
  - apply NoDup_fmap_2_strong; [|done].
    intros p1 p2 [d1 Hp1]%elem_of_copied_into [d2 Hp2]%elem_of_copied_into Heq.
    destruct (Hb _ _ Hp1) as (c1 & i1 & -> & _).
    destruct (Hb _ _ Hp2) as (c2 & i2 & -> & _).
    rewrite !Hf in Heq. apply app_inv_head in Heq. by simplify_eq.
  - intros q. rewrite list_elem_of_bind, list_elem_of_fmap. split.
    + intros (x & (i & -> & Hi)%list_elem_of_fmap & Hx).
      apply elem_of_children in Hi. rewrite <-app_assoc in Hi.
      exists (src ++ [x; i]). split; [by rewrite Hf|].
      apply elem_of_copied_into. exists (d ++ [x; i]). by apply Ha.
    + intros (p & -> & [dst Hp]%elem_of_copied_into).
      destruct (Hb _ _ Hp) as (c & i & -> & -> & Hdir & Hfile).
      exists c. rewrite Hf. split.
      * apply list_elem_of_fmap. exists i. split; [done|].
        apply elem_of_children. by rewrite <-app_assoc.
      * by apply elem_of_children.
Qed.

(** C6 (amended).  At the end of a run of [split_data] that returns, the
    two reported counts are the numbers of entries found in the class
    directories of the train directory and of the validation directory;
    when the three directories lie apart from one another and nothing lay
    below the two destinations before the run, these are the numbers of
    files the run copied into the train split and into the validation
    split. *)
Theorem split_data_reports_copies (src tr va : path) (r : Q) w w' :
  split_data src tr va r w = (Returned tt, w') →
  ∃ n_train n_val,
    stdout w' = stdout w ++
      ["Data split complete. Training images: " +:+ pretty n_train;
       "Validation images: " +:+ pretty n_val] ∧
    entry_counts (fs w') tr n_train ∧
    entry_counts (fs w') va n_val ∧
    (separated src tr → separated src va → separated tr va →
     fresh tr (fs w) → fresh va (fs w) →
     n_train = length (copied_into Train (new_events w w')) ∧
     n_val = length (copied_into Val (new_events w w'))).
Proof.
  intros Hrun.
  pose proof (split_data_Returned _ _ _ _ _ _ Hrun)
    as (_ & _ & _ & n_train & n_val & Hnt & Hnv & Hout).
  exists n_train, n_val. split; [done|]. split; [done|]. split; [done|].
  intros Htr Hva Htv Hft Hfv. split.
  - by apply (entry_counts_copies src tr va r Train w w' n_train).
  - by apply (entry_counts_copies src tr va r Val w w' n_val).
Qed.

(** ** Runs that return *)

Lemma makedirs_rev_returns rname w :
  reachable (rev rname) (fs w) →
  ∃ w', makedirs_rev rname true w = (Returned tt, w') ∧
        stat (fs w') (rev rname) = Some Dir ∧
        stat (fs w') (dirname (rev rname)) = Some Dir.
Proof.
  revert w. induction rname as [|x rhead IH]; intros w Hreach.
  { eexists. by split. }
  assert (∀ w1, same_but_fs w w1 → adds_dirs (rev rhead) (fs w) (fs w1) →
    stat (fs w1) (rev rhead) = Some Dir →
    ∃ w', try_except (os_mkdir (rev (x :: rhead)))
            (λ e, if is_OSError e then
               bind (os_path_isdir (rev (x :: rhead)))
                 (λ leaf_is_dir, if negb true || negb leaf_is_dir
                                 then raise e else ret tt)
             else raise e) w1 = (Returned tt, w') ∧
          stat (fs w') (rev (x :: rhead)) = Some Dir ∧
          stat (fs w') (dirname (rev (x :: rhead))) = Some Dir) as Hleaf.
  { intros w1 _ Hadd Hhead.
    assert (rev (x :: rhead) = rev rhead ++ [x]) as Hname by done.
    assert (dirname (rev (x :: rhead)) = rev rhead) as Hparent.
    { rewrite Hname. apply removelast_snoc. }
    assert (fs w1 !! rev (x :: rhead) = None
            ∨ fs w1 !! rev (x :: rhead) = Some Dir) as Hleaf.
    { destruct (Hadd (rev (x :: rhead))) as [->|(_ & _ & Hpre & _)].
      - apply Hreach; [done|]. rewrite Hname. by destruct (rev rhead).
      - exfalso. rewrite Hname in Hpre. apply prefix_length in Hpre.
        rewrite length_app in Hpre. simpl in Hpre. lia. }
    unfold try_except, os_mkdir. rewrite Hparent, Hhead.
    rewrite (stat_nonempty _ (rev (x :: rhead)))
      by (rewrite Hname; by destruct (rev rhead)).
    destruct Hleaf as [-> | Hdir].
    - eexists. split; [done|]. rewrite fs_set_fs, Hname, stat_snoc.
      rewrite lookup_insert_eq. split; [done|].
      destruct (decide (rev rhead = [])) as [-> | Hne0]; [done|].
      rewrite stat_nonempty in * by done.
      rewrite lookup_insert_ne; [done|].
      intros Heq. apply (f_equal length) in Heq.
      rewrite length_app in Heq. simpl in Heq. lia.
    - rewrite Hdir. simpl. unfold bind, os_path_isdir. simpl.
      rewrite (stat_nonempty _ (rev rhead ++ [x])) by by destruct (rev rhead).
      rewrite <-Hname, Hdir. simpl. eexists. split; [done|].
      rewrite stat_snoc, <-Hname. by split. }
  destruct rhead as [|y rhead'].
  - simpl. unfold bind at 1. simpl.
    apply (Hleaf w); [done|apply adds_dirs_refl|done].
  - change (makedirs_rev (x :: y :: rhead') true)
      with (bind (bind (os_path_exists (rev (y :: rhead')))
                    (λ head_exists, if head_exists then ret tt
                       else try_except (makedirs_rev (y :: rhead') true)
                              (λ e, match e with
                                    | FileExistsError => ret tt
                                    | _ => raise e
                                    end)))
              (λ _, try_except (os_mkdir (rev (x :: y :: rhead')))
                (λ e, if is_OSError e then
                   bind (os_path_isdir (rev (x :: y :: rhead')))
                     (λ leaf_is_dir, if negb true || negb leaf_is_dir
                                     then raise e else ret tt)
                 else raise e))).
    assert (rev (y :: rhead') ≠ []) as Hne.
    { simpl. by destruct (rev rhead'). }
    assert (rev (y :: rhead') `prefix_of` rev (x :: y :: rhead')) as Hpre.
    { change (rev (x :: y :: rhead')) with (rev (y :: rhead') ++ [x]).
      by apply prefix_app_r. }
    unfold bind at 1 2. unfold os_path_exists at 1. cbn [fst snd].
    case_bool_decide as Hex.
    + cbn [ret]. apply (Hleaf w); [done|apply adds_dirs_refl|].
      rewrite stat_nonempty in * by done.
      destruct (Hreach _ Hpre Hne) as [Hn|Hd]; [|done].
      rewrite Hn in Hex. by destruct Hex.
    + destruct (IH w) as (w1 & Hrun & Hd1 & _).
      { intros q Hq. apply Hreach. by etrans. }
      unfold try_except at 1. rewrite Hrun.
      pose proof (makedirs_rev_spec (y :: rhead') true w) as Hspec.
      eapply wp_elim in Hspec; [|exact Hrun].
      destruct Hspec as (Hsame & Hadd & _). by apply Hleaf.
Qed.

Lemma os_makedirs_returns (name : path) w :
  reachable name (fs w) →
  ∃ w', os_makedirs name true w = (Returned tt, w') ∧
        makedirs_post name w (Returned tt) w' ∧
        stat (fs w') (dirname name) = Some Dir.
Proof.
  intros Hreach. unfold os_makedirs.
  destruct (makedirs_rev_returns (rev name) w) as (w' & Hrun & _ & Hparent).
  { by rewrite rev_involutive. }
  rewrite rev_involutive in Hparent. exists w'. split; [done|]. split; [|done].
  pose proof (os_makedirs_spec name true w) as Hspec.
  by eapply wp_elim in Hspec.
Qed.

Lemma shutil_copy_returns src dst w data :
  stat (fs w) src = Some (File true data) →
  stat (fs w) dst ≠ Some Dir → src ≠ dst →
  stat (fs w) (dirname dst) = Some Dir →
  shutil_copy src dst w
  = (Returned dst, set_fs (<[dst := File true data]> (fs w)) w).
Proof.
  intros Hsrc Hdst Hne Hparent. unfold shutil_copy.
  assert (is_dir_node (stat (fs w) dst) = false) as ->.
  { by destruct (stat (fs w) dst) as [[|??]|]. }
  rewrite Hsrc. rewrite decide_False by done. simpl.
  rewrite Hparent. by destruct (stat (fs w) dst) as [[|??]|].
Qed.

Lemma train_test_split_returns {A} (arr : list A) r seed sizes :
  validate_shuffle_split (length arr) r = inr sizes →
  ∃ train test,
    (∀ w, train_test_split arr r (Some seed) w = (Returned (train, test), w)) ∧
    split_ok arr r train test.
Proof.
  intros Hv. destruct (train_test_split_seeded arr r seed) as (o & Ho & Hok).
  destruct o as [[train test]|e]; [by exists train, test; eauto|exfalso].
  specialize (Ho (World ∅ (seed_rng 0) [] [])).
  unfold train_test_split in Ho. rewrite Hv in Ho. destruct sizes as [n_train n_test].
  unfold bind, draw_permutation, safe_indexing in Ho. cbn [fst snd] in Ho.
  set (permutation := (rng_permutation (seed_rng seed) (length arr)).1) in Ho.
  assert (∀ l : list nat, l ⊆ permutation →
          is_Some (mapM (λ idx, arr !! idx) l)) as Hsome.
  { intros l Hl. apply mapM_is_Some, Forall_forall. intros idx Hidx.
    apply Hl in Hidx. unfold permutation in Hidx.
    rewrite rng_permutation_perm in Hidx.
    apply elem_of_seq in Hidx as [_ Hlt]. by apply lookup_lt_is_Some_2. }
  destruct (Hsome (take n_train (drop n_test permutation))) as [train Htrain].
  { etrans; [apply subseteq_take|apply subseteq_drop]. }
  destruct (Hsome (take n_test permutation)) as [test Htest].
  { apply subseteq_take. }
  rewrite Htrain, Htest in Ho. done.
Qed.

Lemma for_each_returns {A} (I : list A → world → Prop)
    (xs : list A) (body : A → M unit) w :
  I [] w →
  (∀ done x rest w1, xs = done ++ x :: rest → I done w1 →
     ∃ w2, body x w1 = (Returned tt, w2) ∧ I (done ++ [x]) w2) →
  ∃ w', for_each xs body w = (Returned tt, w') ∧ I xs w'.
Proof.
  intros HI Hbody.
  assert (wp (for_each xs body) (λ o w', match o with
                                         | Returned _ => I xs w'
                                         | Raised _ => False
                                         end) w) as Hwp.
  { apply wp_for_each; [done|]. intros done x rest w1 Hxs HI1.
    destruct (Hbody done x rest w1 Hxs HI1) as (w2 & Hrun & HI2).
    by eapply wp_eq. }
  unfold wp in Hwp. destruct (for_each xs body w) as [[[]|e] w']; [|done].
  by exists w'.
Qed.

Lemma count_entries_returns (d0 : path) w :
  stat (fs w) d0 = Some Dir →
  (∀ c, c ∈ children (fs w) d0 → stat (fs w) (os_path_join d0 c) = Some Dir) →
  ∃ n, count_entries d0 w = (Returned n, w).
Proof.
  intros Hd0 Hall. unfold count_entries, bind at 1, os_listdir at 1.
  rewrite Hd0.
  assert (∀ ds, (∀ c, c ∈ ds → stat (fs w) (os_path_join d0 c) = Some Dir) →
    ∃ ns, map_M (λ d, bind (os_listdir (os_path_join d0 d))
                        (λ l, ret (length l))) ds w = (Returned ns, w)) as Hmap.
  { induction ds as [|d ds IH]; intros Hds; [by exists []|].
    destruct IH as [ns Hns]; [intros c Hc; apply Hds; by right|].
    exists (length (children (fs w) (os_path_join d0 d)) :: ns).
    simpl. unfold bind at 1 2, os_listdir at 1.
    rewrite (Hds d) by by left. cbn [ret]. unfold bind at 1. by rewrite Hns. }
  destruct (Hmap _ Hall) as [ns Hns]. exists (sum_list ns).
  unfold bind at 1. by rewrite Hns.
Qed.

Lemma bind_eq {A B} (m : M A) (f : A → M B) w a w1 :
  m w = (Returned a, w1) → bind m f w = f a w1.
Proof. unfold bind. by intros ->. Qed.

Lemma dest_root_nonempty (tr va : path) (s : subset) :
  separated tr va → dest_root tr va s ≠ [].
Proof.
  intros Hsep. destruct s; simpl.
  - by eapply separated_nonempty_l.
  - eapply separated_nonempty_l. by apply separated_sym.
Qed.

Lemma dest_root_not_below (tr va : path) (s s' : subset) (k : path) :
  separated tr va → k ≠ [] →
  ¬ dest_root tr va s ++ k `prefix_of` dest_root tr va s'.
Proof.
  intros Hsep Hk [k' Hk'].
  destruct (dest_paths_inj tr va s s' (k ++ k') [] Hsep) as [_ Hnil].
  { by rewrite app_assoc, app_nil_r. }
  by apply app_eq_nil in Hnil as [? _].
Qed.

Lemma fresh_below (d k : path) (m : filesystem) :
  fresh d m → k ≠ [] → m !! (d ++ k) = None.
Proof.
  intros Hfresh Hk. apply Hfresh; [by apply prefix_app_r|].
  intros Heq. apply (f_equal length) in Heq. rewrite length_app in Heq.
  destruct k; [done|]. simpl in Heq. lia.
Qed.

Lemma stat_insert_Dir (m : filesystem) (p d : path) (n : node) :
  stat m p = Some Dir → stat m d ≠ Some Dir → stat (<[d := n]> m) p = Some Dir.
Proof.
  intros Hp Hd. destruct (decide (p = [])) as [-> | Hne]; [done|].
  rewrite stat_nonempty in * by done. rewrite lookup_insert_ne; [done|].
  intros ->. by rewrite stat_nonempty in Hd.
Qed.

Lemma dest_ready_init (tr va : path) (m : filesystem) :
  fresh tr m → fresh va m → reachable tr m → reachable va m →
  dest_ready tr va m.
Proof.
  intros Hftr Hfva Hrtr Hrva.
  assert (∀ s k, k ≠ [] → m !! (dest_root tr va s ++ k) = None) as Hnone.
  { intros [] k Hk; by apply fresh_below. }
  split; [|split; [|split]].
  - by intros [].
  - intros s c. left. by apply Hnone.
  - intros s c i. by rewrite Hnone.
  - intros s c. rewrite Hnone by done. by intros [? ?].
Qed.

Lemma dest_ready_reachable (tr va : path) (s : subset) (c : string)
    (m : filesystem) :
  dest_ready tr va m → reachable (os_path_join (dest_root tr va s) c) m.
Proof.
  intros (Hreach & Hcls & _) q Hq Hne.
  apply prefix_of_snoc in Hq as [Hq | ->]; [by apply (Hreach s)|apply Hcls].
Qed.

Lemma dest_ready_makedirs (tr va : path) (s : subset) (c : string)
    (m m' : filesystem) :
  separated tr va → dest_ready tr va m →
  adds_dirs (os_path_join (dest_root tr va s) c) m m' →
  stat m' (dest_root tr va s) = Some Dir →
  dest_ready tr va m'.
Proof.
  intros Hsep (Hreach & Hcls & Himg & Hroot) Hadd Hparent.
  split; [|split; [|split]].
  - intros s0 q Hq Hne.
    destruct (Hadd q) as [-> | (_ & -> & _)]; [by apply (Hreach s0)|by right].
  - intros s0 c0.
    destruct (Hadd (dest_root tr va s0 ++ [c0])) as [-> | (_ & -> & _)];
      [apply Hcls|by right].
  - intros s0 c0 i0.
    rewrite (adds_dirs_two_below tr va s0 s c0 c i0 m m') by done. apply Himg.
  - intros s0 c0 Hsome.
    destruct (Hadd (dest_root tr va s0 ++ [c0])) as [Heq | (_ & _ & Hpre & _)].
    + rewrite Heq in Hsome. eapply adds_dirs_stat_Dir; [done|]. by eapply Hroot.
    + apply prefix_of_snoc in Hpre as [Hpre | Heq].
      * exfalso. by apply (dest_root_not_below tr va s0 s [c0]).
      * apply app_inj_tail in Heq as [Heq _]. by rewrite Heq.
Qed.

Lemma dest_ready_copy (tr va : path) (s : subset) (c i : string)
    (data : list Byte.byte) (m : filesystem) :
  separated tr va → dest_ready tr va m →
  dest_ready tr va (<[dest_root tr va s ++ [c; i] := File true data]> m).
Proof.
  intros Hsep (Hreach & Hcls & Himg & Hroot).
  assert (∀ s0 c0, dest_root tr va s ++ [c; i] ≠ dest_root tr va s0 ++ [c0])
    as Hne1.
  { intros s0 c0 Heq. by apply dest_paths_inj in Heq as [_ ?]. }
  split; [|split; [|split]].
  - intros s0 q Hq Hne. rewrite lookup_insert_ne; [by apply (Hreach s0)|].
    intros <-. by apply (dest_root_not_below tr va s s0 [c; i]).
  - intros s0 c0. rewrite lookup_insert_ne by done. apply Hcls.
  - intros s0 c0 i0.
    destruct (decide (dest_root tr va s ++ [c; i] = dest_root tr va s0 ++ [c0; i0]))
      as [<- | Hne]; [by rewrite lookup_insert_eq|].
    rewrite lookup_insert_ne by done. apply Himg.
  - intros s0 c0. rewrite lookup_insert_ne by done. intros Hsome.
    rewrite stat_nonempty by by apply dest_root_nonempty.
    rewrite lookup_insert_ne.
    + rewrite <-stat_nonempty by by apply dest_root_nonempty. by eapply Hroot.
    + intros Heq. rewrite <-(app_nil_r (dest_root tr va s0)) in Heq.
      by apply dest_paths_inj in Heq as [_ ?].
Qed.

Lemma dirname_join (dir : path) (name : string) :
  dirname (os_path_join dir name) = dir.
Proof. apply removelast_snoc. Qed.

Lemma copy_images_returns (src tr va : path) (s : subset) (c : string)
    (imgs : list string) w0 w :
  separated src tr → separated src va → separated tr va →
  (∀ img, img ∈ imgs →
     ∃ data, fs w0 !! (src ++ [c; img]) = Some (File true data)) →
  class_ready src tr va c w0 w →
  ∃ w', copy_images s (os_path_join src c)
          (os_path_join (dest_root tr va s) c) imgs w = (Returned tt, w') ∧
        class_ready src tr va c w0 w'.
Proof.
  intros Hst Hsv Htv Hfiles HK. unfold copy_images.
  destruct (for_each_returns (λ _ w', class_ready src tr va c w0 w') imgs
    (λ img, bind (shutil_copy (os_path_join (os_path_join src c) img)
                    (os_path_join (os_path_join (dest_root tr va s) c) img))
              (λ dst, ghost (EvCopy s (os_path_join (os_path_join src c) img) dst)))
    w HK) as (w' & Hrun & HK'); [|by exists w'].
  intros done img rest w1 Himgs (Hframe & Hready & Hcls & Hroots).
  destruct (Hfiles img) as [data Hdata].
  { rewrite Himgs. apply elem_of_app. right. by left. }
  assert (stat (fs w1) (os_path_join (os_path_join (dest_root tr va s) c) img)
          ≠ Some Dir) as Hnd.
  { unfold os_path_join. rewrite stat_snoc, <-app_assoc.
    destruct Hready as (_ & _ & Himg & _). apply Himg. }
  assert (shutil_copy (os_path_join (os_path_join src c) img)
            (os_path_join (os_path_join (dest_root tr va s) c) img) w1
          = (Returned (os_path_join (os_path_join (dest_root tr va s) c) img),
             set_fs (<[os_path_join (os_path_join (dest_root tr va s) c) img
                       := File true data]> (fs w1)) w1)) as Hcp.
  { apply shutil_copy_returns.
    - unfold os_path_join. rewrite stat_snoc, <-app_assoc.
      rewrite Hframe; [done|]. by apply prefix_app_r.
    - done.
    - unfold os_path_join. intros Heq.
      apply app_inj_tail in Heq as [Heq _]. apply app_inj_tail in Heq as [Heq _].
      destruct s; simpl in Heq; [apply Hst|apply Hsv]; rewrite Heq; by left.
    - rewrite dirname_join. apply Hcls. }
  eexists. split; [by rewrite (bind_eq _ _ _ _ _ Hcp)|].
  unfold class_ready. cbn [fs]. rewrite fs_set_fs.
  split; [|split; [|split]].
  - intros p Hp. rewrite lookup_insert_ne; [by apply Hframe|].
    intros <-. unfold os_path_join in Hp. rewrite <-app_assoc in Hp.
    destruct s; simpl in Hp.
    + by apply (separated_below src tr _ Hst) in Hp.
    + by apply (separated_below src va _ Hsv) in Hp.
  - unfold os_path_join. rewrite <-app_assoc. by apply dest_ready_copy.
  - intros s0. by apply stat_insert_Dir.
  - intros s0. by apply stat_insert_Dir.
Qed.

Lemma split_class_returns (src tr va : path) (r : Q) (c : string) w0 w :
  prepared src tr va r (fs w0) → c ∈ children (fs w0) src →
  (∀ p, src `prefix_of` p → fs w !! p = fs w0 !! p) →
  dest_ready tr va (fs w) →
  ∃ w', split_class src tr va r c w = (Returned tt, w') ∧
        (∀ p, src `prefix_of` p → fs w' !! p = fs w0 !! p) ∧
        dest_ready tr va (fs w') ∧
        (fs w0 !! (src ++ [c]) = Some Dir →
         ∀ s, stat (fs w') (dest_root tr va s) = Some Dir).
Proof.
  intros (Hsrc & _ & Hclasses & Hst & Hsv & Htv & _) Hc Hframe Hready.
  unfold split_class.
  assert (stat (fs w) (os_path_join src c) = fs w0 !! (src ++ [c])) as Hstat.
  { unfold os_path_join. rewrite stat_snoc. apply Hframe. by apply prefix_app_r. }
  destruct (fs w0 !! (src ++ [c])) as [[|rd data]|] eqn:Hnode.
  2,3: exists w; (split; [|done]);
       rewrite (bind_eq _ _ w false w); [done|];
       unfold os_path_isdir; by rewrite Hstat.
  destruct (Hclasses c Hc Hnode) as ([sizes Hval] & Hfiles).
  assert (children (fs w) (os_path_join src c)
          = children (fs w0) (src ++ [c])) as Hch.
  { apply children_ext. intros n. rewrite Hframe; [done|].
    unfold os_path_join. rewrite <-app_assoc. by apply prefix_app_r. }
  destruct (train_test_split_returns (images_of (fs w0) (src ++ [c])) r 42%Z
              sizes Hval) as (t & v & Htts & Hok).
  rewrite (bind_eq _ _ w true w); [|unfold os_path_isdir; by rewrite Hstat].
  cbv beta iota.
  rewrite (bind_eq _ _ w (children (fs w) (os_path_join src c)) w);
    [|unfold os_listdir; by rewrite Hstat].
  cbv beta iota zeta. rewrite Hch.
  rewrite (bind_eq _ _ w (t, v) w (Htts w)). cbv beta iota.
  set (wg := (ghost (EvSplit c (filter (λ img, is_image img)
                (children (fs w0) (src ++ [c]))) t v) w).2).
  rewrite (bind_eq _ _ w tt wg) by done.
  destruct (os_makedirs_returns (os_path_join tr c) wg)
    as (w1 & Hmk1 & (_ & Hadd1 & Hleaf1) & Hpar1).
  { by apply (dest_ready_reachable tr va Train). }
  rewrite (bind_eq _ _ _ _ _ Hmk1).
  specialize (Hleaf1 eq_refl). rewrite dirname_join in Hpar1.
  assert (dest_ready tr va (fs w1)) as Hready1.
  { by apply (dest_ready_makedirs tr va Train c (fs w)). }
  destruct (os_makedirs_returns (os_path_join va c) w1)
    as (w2 & Hmk2 & (_ & Hadd2 & Hleaf2) & Hpar2).
  { by apply (dest_ready_reachable tr va Val). }
  rewrite (bind_eq _ _ _ _ _ Hmk2).
  specialize (Hleaf2 eq_refl). rewrite dirname_join in Hpar2.
  assert (class_ready src tr va c w0 w2) as HK2.
  { split; [|split; [|split]].
    - intros p Hp.
      destruct (Hadd2 p) as [-> | (_ & _ & Hpre & _)];
        [destruct (Hadd1 p) as [-> | (_ & _ & Hpre & _)]; [by apply Hframe|]|];
        exfalso.
      + apply (separated_below src tr [c] Hst). by etrans.
      + apply (separated_below src va [c] Hsv). by etrans.
    - by apply (dest_ready_makedirs tr va Val c (fs w1)).
    - intros []; simpl; [by eapply adds_dirs_stat_Dir|done].
    - intros []; simpl; [by eapply adds_dirs_stat_Dir|done]. }
  assert (∀ img, img ∈ t ++ v →
    ∃ data, fs w0 !! (src ++ [c; img]) = Some (File true data)) as Hall.
  { intros img Himg. apply Hfiles. destruct Hok as (_ & _ & _ & Hperm).
    by rewrite <-Hperm. }
  destruct (copy_images_returns src tr va Train c t w0 w2)
    as (w3 & Hcp3 & HK3); [done..| |done|].
  { intros img Himg. apply Hall, elem_of_app. by left. }
  simpl in Hcp3. rewrite (bind_eq _ _ _ _ _ Hcp3).
  destruct (copy_images_returns src tr va Val c v w0 w3)
    as (w4 & Hcp4 & Hframe4 & Hready4 & _ & Hroots4); [done..| |done|].
  { intros img Himg. apply Hall, elem_of_app. by right. }
  by exists w4.
Qed.

(** A run on a prepared world returns. *)
Lemma split_data_returns (src tr va : path) (r : Q) w :
  prepared src tr va r (fs w) →
  ∃ w', split_data src tr va r w = (Returned tt, w').
Proof.
  intros Hprep.
  pose proof Hprep as (Hsrc & (c0 & Hc0 & Hd0) & _ & Hst & Hsv & Htv &
                       Hftr & Hfva & Hrtr & Hrva).
  unfold split_data.
  rewrite (bind_eq _ _ w (children (fs w) src) w);
    [|unfold os_listdir; by rewrite Hsrc].
  destruct (for_each_returns
    (λ done w', (∀ p, src `prefix_of` p → fs w' !! p = fs w !! p) ∧
                dest_ready tr va (fs w') ∧
                (c0 ∈ done → ∀ s, stat (fs w') (dest_root tr va s) = Some Dir))
    (children (fs w) src) (split_class src tr va r) w)
    as (w1 & Hloop & Hframe1 & Hready1 & Hroots1).
  { split; [done|]. split; [by apply dest_ready_init|]. by intros ?%elem_of_nil. }
  { intros done c rest w1 Hxs (Hframe & Hready & Hroots).
    destruct (split_class_returns src tr va r c w w1)
      as (w2 & Hrun & Hframe2 & Hready2 & Hroots2); [done| |done|done|].
    { rewrite Hxs. apply elem_of_app. right. by left. }
    exists w2. split; [done|]. split; [done|]. split; [done|].
    intros Hin s. apply elem_of_app in Hin as [Hin | Hin%list_elem_of_singleton].
    - pose proof (split_class_evolves src tr va r c w1 w1 (evolves_refl _ _ _))
        as Hev.
      eapply wp_elim in Hev; [|exact Hrun]. destruct Hev as (_ & _ & _ & Hstep).
      specialize (Hroots Hin s).
      rewrite stat_nonempty in * by by apply dest_root_nonempty.
      by eapply fs_step_Dir.
    - subst c. by apply Hroots2. }
  rewrite (bind_eq _ _ _ _ _ Hloop). specialize (Hroots1 Hc0).
  assert (∀ s w2, fs w2 = fs w1 →
            ∃ n, count_entries (dest_root tr va s) w2 = (Returned n, w2))
    as Hcount.
  { intros s w2 Hfs. apply count_entries_returns; rewrite Hfs; [done|].
    intros c Hc. apply elem_of_children in Hc.
    unfold os_path_join. rewrite stat_snoc.
    destruct Hready1 as (_ & Hcls & _).
    destruct (Hcls s c) as [Hn|Hd]; [|done]. rewrite Hn in Hc. by destruct Hc. }
  destruct (Hcount Train w1 eq_refl) as [n_train Htrain]. simpl in Htrain.
  rewrite (bind_eq _ _ _ _ _ Htrain).
  set (line := "Data split complete. Training images: " +:+ pretty n_train).
  rewrite (bind_eq _ _ w1 tt (print line w1).2) by done.
  destruct (Hcount Val (print line w1).2 eq_refl) as [n_val Hval].
  simpl in Hval. rewrite (bind_eq _ _ _ _ _ Hval).
  by eexists.
Qed.

(** * Further properties of [split_data] *)

(** ** What a run never does *)

(** X1.  Whatever the file system and however the run ends, [split_data]
    leaves the process-wide numpy generator that cell 1 seeded as it was
    (the split draws from a generator of its own, seeded 42) and only adds
    lines to the console; it removes no entry, a directory stays a
    directory and a file stays a file; and an entry off the branches
    through the train and validation directories is left as it was. *)
Theorem split_data_never_removes (src tr va : path) (r : Q) w (p : path) :
  np_random (split_data src tr va r w).2 = np_random w ∧
  stdout w `prefix_of` stdout (split_data src tr va r w).2 ∧
  (fs w !! p = Some Dir → fs (split_data src tr va r w).2 !! p = Some Dir) ∧
  (∀ rd data, fs w !! p = Some (File rd data) →
     ∃ rd' data', fs (split_data src tr va r w).2 !! p = Some (File rd' data')) ∧
  (¬ related p tr → ¬ related p va →
   fs (split_data src tr va r w).2 !! p = fs w !! p).
Proof.
  destruct (split_data_evolves src tr va r w) as (Hgen & Hout & _ & Hstep).
  split; [done|]. split; [done|]. split; [|split].
  - by apply (fs_step_Dir tr va).
  - intros rd data. by apply (fs_step_File tr va).
  - by apply fs_step_frame.
Qed.

(** ** A source without class directories *)

Lemma split_class_skip (src tr va : path) (r : Q) (c : string) w :
  stat (fs w) (os_path_join src c) ≠ Some Dir →
  split_class src tr va r c w = (Returned tt, w).
Proof.
  intros Hnd. unfold split_class.
  rewrite (bind_eq _ _ w false w); [done|]. unfold os_path_isdir.
  by destruct (stat (fs w) (os_path_join src c)) as [[|??]|].
Qed.




(** ** Runs that return, as a property *)


(** ** The sizes a split can have *)

Lemma validate_shuffle_split_ratio n r sizes :
  validate_shuffle_split n r = inr sizes → (0 < r)%Q ∧ (r < 1)%Q.
Proof.
  unfold validate_shuffle_split.
  destruct (Qle_bool r 0) eqn:H0; [done|].
  destruct (Qle_bool 1 r) eqn:H1; [done|]. intros _. split.
  - apply Qnot_le_lt. intros Hle. apply Qle_bool_iff in Hle. congruence.
  - apply Qnot_le_lt. intros Hle. apply Qle_bool_iff in Hle. congruence.
Qed.

Lemma train_test_split_Returned_ratio {A} (arr : list A) r seed w parts w' :
  train_test_split arr r seed w = (Returned parts, w') → (0 < r)%Q ∧ (r < 1)%Q.
Proof.
  unfold train_test_split.
  destruct (validate_shuffle_split (length arr) r) as [e|sizes] eqn:Hv; [done|].
  intros _. by eapply validate_shuffle_split_ratio.
Qed.

Lemma n_test_of_bounds (n : nat) (r : Q) :
  0 < n → (0 < r)%Q →
  1 ≤ n_test_of n r ∧
  (r * inject_Z (Z.of_nat n) <= inject_Z (Z.of_nat (n_test_of n r)))%Q ∧
  (inject_Z (Z.of_nat (n_test_of n r)) < r * inject_Z (Z.of_nat n) + 1)%Q.
Proof.
  intros Hn Hr. unfold n_test_of.
  set (q := (r * inject_Z (Z.of_nat n))%Q).
  assert (0 < q)%Q as Hq.
  { apply Qmult_lt_0_compat; [done|]. rewrite <-(Zlt_Qlt 0). lia. }
  pose proof (Qle_ceiling q) as Hle. pose proof (Qceiling_lt q) as Hlt.
  assert (0 < Qceiling q)%Z as Hpos.
  { rewrite Zlt_Qlt. by eapply Qlt_le_trans. }
  rewrite Z2Nat.id by lia. split; [lia|]. split; [done|].
  unfold Z.sub in Hlt. rewrite inject_Z_plus in Hlt.
  apply (Qplus_lt_l _ _ 1) in Hlt.
  rewrite <-Qplus_assoc in Hlt.
  change (inject_Z (- (1)) + 1)%Q with 0%Q in Hlt. by rewrite Qplus_0_r in Hlt.
Qed.

Lemma split_ok_bounds {A} (arr train test : list A) (r : Q) :
  split_ok arr r train test → (0 < r)%Q →
  1 ≤ length train ∧ 1 ≤ length test ∧ 2 ≤ length arr ∧
  (r * inject_Z (Z.of_nat (length arr)) <= inject_Z (Z.of_nat (length test)))%Q ∧
  (inject_Z (Z.of_nat (length test)) < r * inject_Z (Z.of_nat (length arr)) + 1)%Q.
Proof.
  intros (Htest & Hsum & Htrain & _) Hr.
  destruct (n_test_of_bounds (length arr) r) as (H1 & Hle & Hlt); [lia|done|].
  rewrite <-Htest in H1, Hle, Hlt. split; [lia|]. split; [lia|]. split; [lia|done].
Qed.

(** ** The events of a run that returns, class by class *)

Lemma not_split_in_copy_events s class_dir l dsts c imgs t v :
  EvSplit c imgs t v ∉ copy_events s class_dir l dsts.
Proof.
  unfold copy_events. intros Hin.
  apply list_elem_of_lookup in Hin as [k Hk].
  apply lookup_zip_with_Some in Hk as (? & ? & ? & _). done.
Qed.

Lemma class_block_Dir (src : path) (r : Q) (c : string) (m : filesystem) evs :
  class_block src r c m evs →
  stat m (os_path_join src c) = Some Dir →
  ∃ t v,
    EvSplit c (images_of m (os_path_join src c)) t v ∈ evs ∧
    (∀ c' imgs' t' v', EvSplit c' imgs' t' v' ∈ evs →
       c' = c ∧ imgs' = images_of m (os_path_join src c) ∧ t' = t ∧ v' = v) ∧
    split_ok (images_of m (os_path_join src c)) r t v ∧
    (∀ w, train_test_split (images_of m (os_path_join src c)) r (Some 42%Z) w
          = (Returned (t, v), w)) ∧
    copied_into Train evs = os_path_join (os_path_join src c) <$> t ∧
    copied_into Val evs = os_path_join (os_path_join src c) <$> v.
Proof.
  unfold class_block. intros Hblock Hdir. rewrite Hdir in Hblock.
  destruct Hblock as (t & v & dt & dv & -> & Hdt & Hdv & Hok & Hdet).
  exists t, v. split; [by left|]. split.
  { intros c' imgs' t' v' [Heq|Hin]%elem_of_cons; [by simplify_eq|].
    apply elem_of_app in Hin as [Hin|Hin];
      by apply not_split_in_copy_events in Hin. }
  split; [done|]. split; [done|].
  change (?x :: ?l1 ++ ?l2) with ([x] ++ l1 ++ l2).
  rewrite !copied_into_app, !copied_into_copy_events by done. simpl.
  repeat case_decide; try done. by rewrite app_nil_r.
Qed.

Lemma class_block_not_Dir (src : path) (r : Q) (c : string) (m : filesystem) evs :
  class_block src r c m evs →
  stat m (os_path_join src c) ≠ Some Dir → evs = [].
Proof.
  unfold class_block. by destruct (stat m (os_path_join src c)) as [[|??]|].
Qed.

Lemma blocks_split_event (src : path) (r : Q) (classes : list string)
    (evss : list (list event)) (P : string → filesystem → Prop)
    (c : string) (imgs t v : list string) :
  Forall2 (λ c evs, ∃ m, P c m ∧ class_block src r c m evs) classes evss →
  EvSplit c imgs t v ∈ concat evss →
  ∃ m, P c m ∧ c ∈ classes ∧ stat m (os_path_join src c) = Some Dir ∧
       imgs = images_of m (os_path_join src c) ∧ split_ok imgs r t v ∧
       ∀ w, train_test_split imgs r (Some 42%Z) w = (Returned (t, v), w).
Proof.
  induction 1 as [|c0 evs classes evss (m & HP & Hblock) _ IH]; simpl.
  { by intros ?%elem_of_nil. }
  intros [Hin|Hin]%elem_of_app.
  - assert (stat m (os_path_join src c0) = Some Dir
            ∨ stat m (os_path_join src c0) ≠ Some Dir) as [Hdir|Hnd].
    { destruct (stat m (os_path_join src c0)) as [[|??]|]; auto. }
    + destruct (class_block_Dir _ _ _ _ _ Hblock Hdir)
        as (t0 & v0 & _ & Huniq & Hok & Hdet & _).
      destruct (Huniq _ _ _ _ Hin) as (-> & -> & -> & ->).
      exists m. split; [done|]. split; [by left|]. done.
    + rewrite (class_block_not_Dir _ _ _ _ _ Hblock Hnd) in Hin.
      by apply elem_of_nil in Hin.
  - destruct (IH Hin) as (m' & ? & ? & ?). exists m'. split; [done|].
    split; [by right|done].
Qed.

Lemma split_event_bounds (src tr va : path) (r : Q) w w' (c : string)
    (imgs t v : list string) :
  split_data src tr va r w = (Returned tt, w') →
  EvSplit c imgs t v ∈ new_events w w' →
  (0 < r)%Q ∧ (r < 1)%Q ∧
  1 ≤ length t ∧ 1 ≤ length v ∧ 2 ≤ length imgs ∧
  (r * inject_Z (Z.of_nat (length imgs)) <= inject_Z (Z.of_nat (length v)))%Q ∧
  (inject_Z (Z.of_nat (length v)) < r * inject_Z (Z.of_nat (length imgs)) + 1)%Q.
Proof.
  intros Hrun Hin.
  apply split_data_Returned in Hrun as (_ & _ & (evss & Htrace & Hall) & _).
  rewrite (new_events_app _ _ _ Htrace) in Hin.
  destruct (blocks_split_event src r (children (fs w) src) evss
              (λ _ _, True) c imgs t v) as
    (m & _ & _ & _ & _ & Hok & Hdet); [|done|].
  { eapply Forall2_impl; [exact Hall|]. intros c0 evs (wc & _ & Hb). eauto. }
  destruct (train_test_split_Returned_ratio _ _ _ _ _ _ (Hdet w)) as [H0 H1].
  split; [done|]. split; [done|]. by apply split_ok_bounds.
Qed.


(** X5.  A class directory that lists fewer than two images makes
    [split_data] raise instead of returning: the split would leave its
    training set or its validation set empty.  (The destinations are
    taken apart from the source, so that the class still lists these
    images when its turn comes.) *)
Theorem split_data_small_class_raises (src tr va : path) (r : Q) w (c : string) :
  separated src tr → separated src va →
  c ∈ children (fs w) src →
  stat (fs w) (src ++ [c]) = Some Dir →
  length (images_of (fs w) (src ++ [c])) < 2 →
  ∃ e, (split_data src tr va r w).1 = Raised e.
Proof.
  intros Htr Hva Hc Hdir Hfew.
  destruct (split_data src tr va r w) as [[[]|e] w'] eqn:Hrun; [exfalso|by eauto].
  destruct (split_data_blocks _ _ _ _ _ _ Htr Hva Hrun) as (evss & _ & Hall).
  apply list_elem_of_lookup in Hc as [k Hk].
  destruct (Forall2_lookup_l _ _ _ _ _ Hall Hk) as (evs & _ & Hblock).
  destruct (class_block_Dir _ _ _ _ _ Hblock Hdir)
    as (t & v & _ & _ & Hok & Hdet & _).
  destruct (train_test_split_Returned_ratio _ _ _ _ _ _ (Hdet w)) as [H0 _].
  destruct (split_ok_bounds _ _ _ _ Hok H0) as (_ & _ & H2 & _).
  unfold os_path_join in H2. lia.
Qed.

(** ** The report, from the source *)



(** ** What the destinations hold after a run *)

Lemma class_block_copied_in (src : path) (r : Q) (c : string) (m : filesystem)
    (evs : list event) (s : subset) (p : path) :
  class_block src r c m evs → p ∈ copied_into s evs → ∃ i, p = src ++ [c; i].
Proof.
  intros Hblock Hp.
  destruct (copied_into_blocks_NoDup src r m s [c] [evs]) as [_ Hin].
  - by repeat constructor.
  - apply NoDup_singleton.
  - destruct (Hin p) as (c' & i & ->%list_elem_of_singleton & ->); [|by eauto].
    simpl. by rewrite app_nil_r.
Qed.

(** In the events of a run that returns, the sources copied from a class
    directory into a destination are the images of the part of its split
    that goes there. *)
Lemma blocks_copied_class (src : path) (r : Q) (m : filesystem)
    (classes : list string) (evss : list (list event)) (c : string)
    (t v : list string) :
  Forall2 (λ c evs, class_block src r c m evs) classes evss →
  NoDup classes → c ∈ classes →
  stat m (os_path_join src c) = Some Dir →
  (∀ w, train_test_split (images_of m (os_path_join src c)) r (Some 42%Z) w
        = (Returned (t, v), w)) →
  ∀ s i, src ++ [c; i] ∈ copied_into s (concat evss) ↔ i ∈ part s t v.
Proof.
  intros Hall Hnd Hc Hdir Hdet s i.
  induction Hall as [|c0 evs classes evss Hblock Hall IH];
    [by apply elem_of_nil in Hc|].
  apply NoDup_cons in Hnd as [Hc0 Hnd]. simpl.
  rewrite copied_into_app, elem_of_app.
  destruct (decide (c = c0)) as [->|Hne].
  - destruct (class_block_Dir _ _ _ _ _ Hblock Hdir)
      as (t0 & v0 & _ & _ & _ & Hdet0 & Ht & Hv).
    assert (t0 = t ∧ v0 = v) as [-> ->].
    { specialize (Hdet0 (World m (seed_rng 0) [] [])).
      rewrite Hdet in Hdet0. by injection Hdet0 as -> ->. }
    assert (copied_into s evs = os_path_join (os_path_join src c0) <$> part s t v)
      as -> by by destruct s.
    split.
    + intros [(i' & Heq & Hi')%list_elem_of_fmap|Hin].
      * unfold os_path_join in Heq. rewrite <-app_assoc in Heq.
        apply app_inv_head in Heq. simpl in Heq. by simplify_eq.
      * destruct (copied_into_blocks_NoDup src r m s _ _ Hall Hnd) as [_ Hrest].
        destruct (Hrest _ Hin) as (c' & i' & Hc' & Heq).
        apply app_inv_head in Heq. by simplify_eq.
    + intros Hi. left. apply list_elem_of_fmap. exists i. split; [|done].
      unfold os_path_join. by rewrite <-app_assoc.
  - apply elem_of_cons in Hc as [?|Hc]; [done|].
    rewrite <-(IH Hnd Hc). split; [|by right].
    intros [Hin|Hin]; [|done].
    destruct (class_block_copied_in _ _ _ _ _ _ _ Hblock Hin) as [i' Heq].
    apply app_inv_head in Heq. by simplify_eq.
Qed.

(** With nothing below a destination at the start, after a run that
    returns the class directory of [c] in that destination lists the part
    of the split of [c] that goes there, and each of these images holds
    there the bytes it holds in the source. *)
Lemma split_data_destination (src tr va : path) (r : Q) (s : subset) w w'
    (c : string) (imgs t v : list string) :
  separated src tr → separated src va → separated tr va →
  fresh (dest_root tr va s) (fs w) →
  split_data src tr va r w = (Returned tt, w') →
  EvSplit c imgs t v ∈ new_events w w' →
  c ∈ class_dirs (fs w) src ∧
  imgs = images_of (fs w) (os_path_join src c) ∧
  (∀ w1, train_test_split imgs r (Some 42%Z) w1 = (Returned (t, v), w1)) ∧
  (∀ i, is_Some (fs w' !! (dest_root tr va s ++ [c; i])) ↔ i ∈ part s t v) ∧
  (∀ i, i ∈ part s t v →
     is_Some (fs w' !! (dest_root tr va s ++ [c])) ∧
     ∃ data, fs w !! (src ++ [c; i]) = Some (File true data) ∧
             fs w' !! (dest_root tr va s ++ [c; i]) = Some (File true data)).
Proof.
  intros Htr Hva Htv Hfresh Hrun Hin.
  pose proof (split_data_ledger src tr va r s w Htv Hfresh) as Hledger.
  eapply wp_elim in Hledger; [|exact Hrun]. destruct Hledger as [Ha Hb].
  pose proof (split_data_copies_intact src tr va r w Htr Hva Htv) as Hintact.
  eapply wp_elim in Hintact; [|exact Hrun]. cbn beta in Hintact.
  destruct (split_data_blocks _ _ _ _ _ _ Htr Hva Hrun) as (evss & Hnew & Hall).
  rewrite Hnew in Hin.
  destruct (blocks_split_event src r (children (fs w) src) evss
              (λ _ m, m = fs w) c imgs t v) as
    (m & -> & Hc & Hdir & Himgs & _ & Hdet); [|done|].
  { eapply Forall2_impl; [exact Hall|]. intros c0 evs Hblock. eauto. }
  subst imgs.
  pose proof (blocks_copied_class src r (fs w) _ _ c t v Hall
                (NoDup_children _ _) Hc Hdir Hdet s) as Hcopied.
  rewrite <-Hnew in Hcopied.
  assert (∀ i, i ∈ part s t v →
            is_Some (fs w' !! (dest_root tr va s ++ [c])) ∧
            ∃ data, fs w !! (src ++ [c; i]) = Some (File true data) ∧
                    fs w' !! (dest_root tr va s ++ [c; i]) = Some (File true data))
    as Hfiles.
  { intros i Hi. apply Hcopied, elem_of_copied_into in Hi as [d Hd].
    destruct (Hb _ _ Hd) as (c' & i' & Heq & -> & Hdirc & _).
    apply app_inv_head in Heq. simplify_eq. split; [done|].
    destruct (Hintact _ _ _ Hd) as (c2 & i2 & data & Heq & _ & Hsrc & Hdst).
    apply app_inv_head in Heq. simplify_eq. eauto. }
  split.
  { unfold class_dirs. apply list_elem_of_filter. by rewrite Hdir. }
  split; [done|]. split; [done|]. split; [|done].
  intros i. split.
  - intros Hi. apply Hcopied, elem_of_copied_into. eauto.
  - intros Hi. destruct (Hfiles i Hi) as (_ & data & _ & ->). eauto.
Qed.

(** X7.  With the three directories apart from one another and nothing
    below the two destinations at the start, after a run that returns the
    train directory of a class lists exactly the training images of its
    split and the validation directory exactly its validation images,
    each image under its own name and with the bytes it has in the
    source. *)
Theorem split_data_destination_content (src tr va : path) (r : Q) w w'
    (c : string) (imgs t v : list string) :
  separated src tr → separated src va → separated tr va →
  fresh tr (fs w) → fresh va (fs w) →
  split_data src tr va r w = (Returned tt, w') →
  EvSplit c imgs t v ∈ new_events w w' →
  children (fs w') (tr ++ [c]) ≡ₚ t ∧
  children (fs w') (va ++ [c]) ≡ₚ v ∧
  (∀ i, i ∈ t → ∃ data, fs w !! (src ++ [c; i]) = Some (File true data) ∧
                        fs w' !! (tr ++ [c; i]) = Some (File true data)) ∧
  (∀ i, i ∈ v → ∃ data, fs w !! (src ++ [c; i]) = Some (File true data) ∧
                        fs w' !! (va ++ [c; i]) = Some (File true data)).
Proof.
  intros Htr Hva Htv Hft Hfv Hrun Hin.
  destruct (split_data_destination src tr va r Train w w' c imgs t v)
    as (_ & Himgs & Hdet & Hit & Hft'); [done..|].
  destruct (split_data_destination src tr va r Val w w' c imgs t v)
    as (_ & _ & _ & Hiv & Hfv'); [done..|].
  assert (NoDup (t ++ v)) as Hnd.
  { destruct (train_test_split_seeded imgs r 42%Z) as (o & Ho & Hok).
    specialize (Ho w). rewrite Hdet in Ho. injection Ho as <-.
    destruct (Hok t v eq_refl) as (_ & _ & _ & ->). subst imgs.
    apply NoDup_filter, NoDup_children. }
  apply NoDup_app in Hnd as (Hndt & _ & Hndv).
  split; [|split; [|split]].
  - apply NoDup_Permutation; [apply NoDup_children|done|].
    intros i. rewrite elem_of_children, <-app_assoc. apply Hit.
  - apply NoDup_Permutation; [apply NoDup_children|done|].
    intros i. rewrite elem_of_children, <-app_assoc. apply Hiv.
  - intros i Hi. by apply (Hft' i).
  - intros i Hi. by apply (Hfv' i).
Qed.

(** ** The classes of the destinations *)

(** An invariant of the class iterations and of printing is an invariant
    of the run. *)
Lemma split_data_by_class (I : world → Prop) (src tr va : path) (r : Q) w0 :
  I w0 →
  (∀ c w, c ∈ children (fs w0) src → I w →
     wp (split_class src tr va r c) (λ _ w', I w') w) →
  (∀ w line, I w → I (print line w).2) →
  wp (split_data src tr va r) (λ _ w', I w') w0.
Proof.
  intros HI Hclass Hprint. unfold split_data.
  apply wp_bind. unfold wp at 1. rewrite os_listdir_world.
  destruct (os_listdir src w0).1 as [classes|e] eqn:Hls; [|done].
  assert (classes = children (fs w0) src) as ->.
  { destruct (os_listdir src w0) as [o w'] eqn:Hrun. simpl in Hls. subst o.
    by apply os_listdir_Returned in Hrun as (_ & -> & _). }
  apply wp_bind. eapply wp_mono; [apply (wp_for_each_inv I); [done|]|].
  { intros c w1 Hc HI1. by apply Hclass. }
  intros [[]|e] w1 HI1; [|done].
  apply wp_bind. unfold wp at 1. rewrite count_entries_world.
  destruct (count_entries tr w1).1 as [n_train|e]; [|done].
  apply wp_bind. unfold wp at 1.
  change (print ?l w1).1 with (@Returned unit tt).
  apply wp_bind. unfold wp at 1. rewrite count_entries_world.
  destruct (count_entries va _).1 as [n_val|e]; [|by apply Hprint].
  unfold wp. by apply Hprint, Hprint.
Qed.

(** The iteration of a class leaves the class directories of the other
    classes in the destinations as they are. *)
Lemma split_class_depth1 (src tr va : path) (r : Q) (c : string) w
    (s : subset) (c' : string) :
  separated tr va → c' ≠ c →
  fs (split_class src tr va r c w).2 !! (dest_root tr va s ++ [c'])
  = fs w !! (dest_root tr va s ++ [c']).
Proof.
  intros Htv Hne.
  apply (split_class_steps
    (λ w', fs w' !! (dest_root tr va s ++ [c']) = fs w !! (dest_root tr va s ++ [c']))
    src tr va r c); [done| | |done].
  - intros w1 s1 o w2 HI (_ & Hadd & _).
    destruct (Hadd (dest_root tr va s ++ [c'])) as [->|(_ & _ & Hpre & _)];
      [done|exfalso].
    unfold os_path_join in Hpre. apply prefix_of_snoc in Hpre as [Hpre|Heq].
    + by apply (dest_root_not_below tr va s s1 [c']) in Hpre.
    + apply dest_paths_inj in Heq as [_ ?]; [|done]. by simplify_eq.
  - intros w1 s1 i d w2 HI _ _ _ Hpost.
    pose proof (copy_post_below _ _ _ _ _ _ _ _ _ Hpost) as Hd.
    destruct Hpost as (_ & _ & _ & _ & _ & data & _ & ->).
    rewrite ghost_fs, fs_set_fs, lookup_insert_ne; [done|].
    intros Heq. destruct Hd as [-> | ->];
      by apply dest_paths_inj in Heq as [_ ?].
Qed.

(** With nothing below a destination at the start, the class directories
    found there after a run, however it ends, are named after class
    directories of the source. *)
Lemma split_data_dest_classes (src tr va : path) (r : Q) (s : subset) w :
  separated src tr → separated src va → separated tr va →
  fresh (dest_root tr va s) (fs w) →
  wp (split_data src tr va r)
    (λ _ w', ∀ c, is_Some (fs w' !! (dest_root tr va s ++ [c])) →
                  c ∈ class_dirs (fs w) src) w.
Proof.
  intros Htr Hva Htv Hfresh.
  set (I := λ w', evolves tr va w w' ∧
    ∀ c, is_Some (fs w' !! (dest_root tr va s ++ [c])) → c ∈ class_dirs (fs w) src).
  cut (wp (split_data src tr va r) (λ _ w', I w') w).
  { by intros [_ ?]. }
  apply split_data_by_class.
  - split; [apply evolves_refl|]. intros c. by rewrite fresh_below.
  - intros c w1 Hc [Hev HI]. unfold wp. split.
    { by apply (split_class_evolves src tr va r c w w1). }
    intros c' Hsome. destruct (decide (c' = c)) as [->|Hne].
    + assert (stat (fs w1) (os_path_join src c) = Some Dir
              ∨ stat (fs w1) (os_path_join src c) ≠ Some Dir) as [Hdir|Hnd].
      { destruct (stat (fs w1) (os_path_join src c)) as [[|??]|]; auto. }
      * apply list_elem_of_filter. split; [|done].
        destruct Hev as (_ & _ & _ & Hstep).
        rewrite <-(source_stat src tr va (fs w) (fs w1));
          [by rewrite Hdir|done..|by apply prefix_app_r].
      * rewrite split_class_skip in Hsome by done. by apply HI.
    + rewrite split_class_depth1 in Hsome by done. by apply HI.
  - intros w1 line [Hev HI]. split; [by apply evolves_print|done].
Qed.

Lemma children_eq (m1 m2 : filesystem) (d1 d2 : path) :
  (∀ n, is_Some (m1 !! (d1 ++ [n])) ↔ is_Some (m2 !! (d2 ++ [n]))) →
  children m1 d1 = children m2 d2.
Proof.
  intros Hext. apply (Sorted_unique name_le).
  - apply Sorted_merge_sort, _.
  - apply Sorted_merge_sort, _.
  - apply NoDup_Permutation; [apply NoDup_children..|].
    intros n. rewrite !elem_of_children. apply Hext.
Qed.

Lemma filter_all {A} (P : A → Prop) `{∀ x, Decision (P x)} (l : list A) :
  (∀ x, x ∈ l → P x) → filter P l = l.
Proof.
  induction l as [|x l IH]; intros Hall; [done|].
  rewrite filter_cons, decide_True by (apply Hall; by left).
  f_equal. apply IH. intros y Hy. apply Hall. by right.
Qed.

(** With nothing below the destinations at the start, after a run that
    returns each destination holds one directory per class directory of
    the source, and nothing else. *)
Lemma split_data_dest_mirror (src tr va : path) (r : Q) (s : subset) w w' :
  separated src tr → separated src va → separated tr va →
  fresh (dest_root tr va s) (fs w) →
  split_data src tr va r w = (Returned tt, w') →
  (∀ c, is_Some (fs w' !! (dest_root tr va s ++ [c])) ↔ c ∈ class_dirs (fs w) src) ∧
  (∀ c, c ∈ children (fs w') (dest_root tr va s) →
        stat (fs w') (os_path_join (dest_root tr va s) c) = Some Dir).
Proof.
  intros Htr Hva Htv Hfresh Hrun. split.
  - intros c. split.
    + pose proof (split_data_dest_classes src tr va r s w Htr Hva Htv Hfresh) as Hk.
      eapply wp_elim in Hk; [|exact Hrun]. apply Hk.
    + intros [Hdir Hc]%list_elem_of_filter.
      destruct (split_data_blocks _ _ _ _ _ _ Htr Hva Hrun) as (evss & Hnew & Hall).
      apply list_elem_of_lookup in Hc as [k Hk].
      destruct (Forall2_lookup_l _ _ _ _ _ Hall Hk) as (evs & Hevs & Hblock).
      assert (stat (fs w) (os_path_join src c) = Some Dir) as Hdir'.
      { by destruct (stat (fs w) (os_path_join src c)) as [[|??]|]. }
      destruct (class_block_Dir _ _ _ _ _ Hblock Hdir')
        as (t & v & Hin & _).
      assert (EvSplit c (images_of (fs w) (os_path_join src c)) t v
                ∈ new_events w w') as Hev.
      { rewrite Hnew. apply list_elem_of_In, in_concat. eexists. split.
        - apply list_elem_of_In, list_elem_of_lookup. eauto.
        - by apply list_elem_of_In. }
      destruct (split_event_bounds _ _ _ _ _ _ _ _ _ _ Hrun Hev)
        as (_ & _ & Ht & Hv & _).
      destruct (split_data_destination src tr va r s w w' c
                  (images_of (fs w) (os_path_join src c)) t v)
        as (_ & _ & _ & _ & Hfiles); [done..|].
      assert (∃ i, i ∈ part s t v) as [i Hi].
      { destruct s; simpl.
        - destruct t as [|i t]; [simpl in Ht; lia|]. exists i. by left.
        - destruct v as [|i v]; [simpl in Hv; lia|]. exists i. by left. }
      by destruct (Hfiles i Hi).
  - apply split_data_Returned in Hrun
      as (_ & _ & _ & n_train & n_val & (_ & ns1 & _ & H1) & (_ & ns2 & _ & H2) & _).
    intros c [k Hk]%list_elem_of_lookup. destruct s; simpl in *.
    + by destruct (Forall2_lookup_l _ _ _ _ _ H1 Hk) as (? & _ & ? & _).
    + by destruct (Forall2_lookup_l _ _ _ _ _ H2 Hk) as (? & _ & ? & _).
Qed.

(** X8.  With the three directories apart from one another and nothing
    below the two destinations at the start, after a run that returns the
    train directory and the validation directory hold the same class
    directories, one per class directory of the source and nothing else;
    so the generators of cells 8 and 9 number the classes alike, and the
    model of cell 13 has one output unit per class directory of the
    source. *)
Theorem split_data_classes_agree (src tr va : path) (r : Q) w w'
    (backbone : list layer) :
  separated src tr → separated src va → separated tr va →
  fresh tr (fs w) → fresh va (fs w) →
  split_data src tr va r w = (Returned tt, w') →
  children (fs w') tr ≡ₚ class_dirs (fs w) src ∧
  children (fs w') va = children (fs w') tr ∧
  class_indices (fs w') va = class_indices (fs w') tr ∧
  (class_indices (fs w') tr).*1 ≡ₚ class_dirs (fs w) src ∧
  output_shape (build_model backbone (class_indices (fs w') tr))
  = [length (class_dirs (fs w) src)].
Proof.
  intros Htr Hva Htv Hft Hfv Hrun.
  destruct (split_data_dest_mirror src tr va r Train w w') as [Hct Hdt]; [done..|].
  destruct (split_data_dest_mirror src tr va r Val w w') as [Hcv Hdv]; [done..|].
  simpl in Hct, Hdt, Hcv, Hdv.
  assert (children (fs w') tr ≡ₚ class_dirs (fs w) src) as Hperm.
  { apply NoDup_Permutation;
      [apply NoDup_children|apply NoDup_filter, NoDup_children|].
    intros c. rewrite elem_of_children. apply Hct. }
  assert (children (fs w') va = children (fs w') tr) as Heq.
  { apply children_eq. intros c. by rewrite Hct, Hcv. }
  assert (∀ d, (∀ c, c ∈ children (fs w') d →
                     stat (fs w') (os_path_join d c) = Some Dir) →
    filter (λ subdir, is_dir_node (stat (fs w') (os_path_join d subdir)))
      (merge_sort String.le (children (fs w') d))
    = merge_sort String.le (children (fs w') d)) as Hall.
  { intros d Hd. apply filter_all. intros c Hc.
    rewrite merge_sort_Permutation in Hc. by rewrite (Hd c Hc). }
  assert ((class_indices (fs w') tr).*1 ≡ₚ class_dirs (fs w) src) as Hnames.
  { unfold class_indices. rewrite (Hall tr Hdt).
    rewrite fst_zip by by rewrite length_seq.
    by rewrite merge_sort_Permutation. }
  split; [done|]. split; [done|]. split; [|split; [done|]].
  - unfold class_indices. by rewrite (Hall tr Hdt), (Hall va Hdv), Heq.
  - change (output_shape (build_model backbone (class_indices (fs w') tr)))
      with [length (class_indices (fs w') tr)].
    by rewrite <-Hnames, length_fmap.
Qed.

(** ** Running the split again *)









(** ** A file among the class directories of a destination *)

(** X10.  A plain file directly inside the train directory or the
    validation directory makes the run raise instead of returning:
    nothing removes the file, and the report lists every entry of the two
    directories as a directory. *)
Theorem split_data_stray_file_raises (src tr va : path) (r : Q) w
    (x : string) (rd : bool) (data : list Byte.byte) :
  fs w !! (tr ++ [x]) = Some (File rd data)
  ∨ fs w !! (va ++ [x]) = Some (File rd data) →
  ∃ e, (split_data src tr va r w).1 = Raised e.
Proof.
  intros Hfile.
  destruct (split_data src tr va r w) as [[[]|e] w'] eqn:Hrun; [exfalso|by eauto].
  apply split_data_Returned in Hrun
    as (_ & (_ & _ & _ & Hstep) & _ & n_train & n_val
        & (_ & ns1 & _ & H1) & (_ & ns2 & _ & H2) & _).
  assert (∀ d ns,
    Forall2 (λ c k, stat (fs w') (os_path_join d c) = Some Dir ∧
                    k = length (children (fs w') (os_path_join d c)))
      (children (fs w') d) ns →
    fs w !! (d ++ [x]) = Some (File rd data) → False) as Hno.
  { intros d ns Hall Hx.
    destruct (fs_step_File _ _ _ _ _ _ _ Hstep Hx) as (rd' & data' & Hx').
    assert (x ∈ children (fs w') d) as [k Hk]%list_elem_of_lookup.
    { apply elem_of_children. by rewrite Hx'. }
    destruct (Forall2_lookup_l _ _ _ _ _ Hall Hk) as (? & _ & Hdir & _).
    unfold os_path_join in Hdir. rewrite stat_snoc in Hdir. congruence. }
  destruct Hfile as [Hx|Hx]; eauto.
Qed.

(** ** The split of a class depends on its listing alone *)

(** X11.  The split of a class depends only on the image names the class
    directory lists: in two runs that return, with the destinations apart
    from the source, two class directories that list the same image names
    in the same order are split into the same training and validation
    names, whatever the bytes of the images, the other classes, the
    destinations and the state of the process-wide generator are. *)
Theorem split_data_split_by_names (src1 tr1 va1 src2 tr2 va2 : path) (r : Q)
    w1 w1' w2 w2' (c1 c2 : string) (imgs1 t1 v1 imgs2 t2 v2 : list string) :
  separated src1 tr1 → separated src1 va1 →
  separated src2 tr2 → separated src2 va2 →
  split_data src1 tr1 va1 r w1 = (Returned tt, w1') →
  split_data src2 tr2 va2 r w2 = (Returned tt, w2') →
  images_of (fs w1) (src1 ++ [c1]) = images_of (fs w2) (src2 ++ [c2]) →
  EvSplit c1 imgs1 t1 v1 ∈ new_events w1 w1' →
  EvSplit c2 imgs2 t2 v2 ∈ new_events w2 w2' →
  imgs1 = imgs2 ∧ t1 = t2 ∧ v1 = v2.
Proof.
  intros Htr1 Hva1 Htr2 Hva2 Hrun1 Hrun2 Hnames Hin1 Hin2.
  assert (∀ src tr va w w' c imgs t v,
    separated src tr → separated src va →
    split_data src tr va r w = (Returned tt, w') →
    EvSplit c imgs t v ∈ new_events w w' →
    imgs = images_of (fs w) (src ++ [c]) ∧
    train_test_split imgs r (Some 42%Z) w1 = (Returned (t, v), w1)) as Hblock.
  { intros src tr va w w' c imgs t v Htr Hva Hrun Hin.
    destruct (split_data_blocks _ _ _ _ _ _ Htr Hva Hrun) as (evss & Hnew & Hall).
    rewrite Hnew in Hin.
    destruct (blocks_split_event src r (children (fs w) src) evss
                (λ _ m, m = fs w) c imgs t v) as
      (m & -> & _ & _ & Himgs & _ & Hdet); [|done|by split].
    eapply Forall2_impl; [exact Hall|]. intros c0 evs Hb. eauto. }
  destruct (Hblock _ _ _ _ _ _ _ _ _ Htr1 Hva1 Hrun1 Hin1) as [-> Hdet1].
  destruct (Hblock _ _ _ _ _ _ _ _ _ Htr2 Hva2 Hrun2 Hin2) as [-> Hdet2].
  split; [done|]. rewrite Hnames, Hdet2 in Hdet1. by injection Hdet1 as -> ->.
Qed.

(** ** Every image once *)

Lemma split_data_class_split (src tr va : path) (r : Q) w w' (c : string) :
  separated src tr → separated src va →
  split_data src tr va r w = (Returned tt, w') →
  c ∈ class_dirs (fs w) src →
  ∃ t v, EvSplit c (images_of (fs w) (os_path_join src c)) t v ∈ new_events w w' ∧
         t ++ v ≡ₚ images_of (fs w) (os_path_join src c).
Proof.
  intros Htr Hva Hrun [Hdir Hc]%list_elem_of_filter.
  destruct (split_data_blocks _ _ _ _ _ _ Htr Hva Hrun) as (evss & Hnew & Hall).
  apply list_elem_of_lookup in Hc as [k Hk].
  destruct (Forall2_lookup_l _ _ _ _ _ Hall Hk) as (evs & Hevs & Hblock).
  assert (stat (fs w) (os_path_join src c) = Some Dir) as Hdir'.
  { by destruct (stat (fs w) (os_path_join src c)) as [[|??]|]. }
  destruct (class_block_Dir _ _ _ _ _ Hblock Hdir')
    as (t & v & Hin & _ & (_ & _ & _ & Hperm) & _).
  exists t, v. split; [|done].
  rewrite Hnew. apply list_elem_of_In, in_concat. eexists. split.
  - apply list_elem_of_In, list_elem_of_lookup. eauto.
  - by apply list_elem_of_In.
Qed.

(** X12.  With the three directories apart from one another and nothing
    below the two destinations at the start, after a run that returns
    every image of every class directory of the source is found, under
    its class and its own name, in exactly one of the train directory and
    the validation directory, and nothing else is found there: an entry
    of a class directory whose name does not end in [.jpg], [.jpeg] or
    [.png] (an upper-case [.JPG], say) is in neither. *)
Theorem split_data_each_image_once (src tr va : path) (r : Q) w w'
    (c i : string) :
  separated src tr → separated src va → separated tr va →
  fresh tr (fs w) → fresh va (fs w) →
  split_data src tr va r w = (Returned tt, w') →
  (is_Some (fs w' !! (tr ++ [c; i])) ∨ is_Some (fs w' !! (va ++ [c; i])) ↔
   c ∈ class_dirs (fs w) src ∧ i ∈ images_of (fs w) (src ++ [c])) ∧
  ¬ (is_Some (fs w' !! (tr ++ [c; i])) ∧ is_Some (fs w' !! (va ++ [c; i]))).
Proof.
  intros Htr Hva Htv Hft Hfv Hrun.
  assert (∀ s, fresh (dest_root tr va s) (fs w)) as Hfresh by by intros [].
  assert (∀ s, is_Some (fs w' !! (dest_root tr va s ++ [c; i])) →
               c ∈ class_dirs (fs w) src) as Hclass.
  { intros s Hsome.
    pose proof (split_data_ledger src tr va r s w Htv (Hfresh s)) as Hledger.
    eapply wp_elim in Hledger; [|exact Hrun]. destruct Hledger as [Ha Hb].
    destruct (Hb _ _ (Ha c i Hsome)) as (c' & i' & _ & Heq & Hdir & _).
    apply app_inv_head in Heq. simplify_eq.
    by apply (split_data_dest_mirror src tr va r s w w'). }
  assert (c ∈ class_dirs (fs w) src →
    ∃ t v, t ++ v ≡ₚ images_of (fs w) (src ++ [c]) ∧
           ∀ s, is_Some (fs w' !! (dest_root tr va s ++ [c; i])) ↔ i ∈ part s t v)
    as Hparts.
  { intros Hc.
    destruct (split_data_class_split _ _ _ _ _ _ _ Htr Hva Hrun Hc)
      as (t & v & Hev & Hperm).
    exists t, v. split; [done|]. intros s.
    by destruct (split_data_destination src tr va r s w w' c _ t v
                   Htr Hva Htv (Hfresh s) Hrun Hev) as (_ & _ & _ & Hiff & _). }
  split; [split|].
  - intros Hsome.
    assert (c ∈ class_dirs (fs w) src) as Hc.
    { destruct Hsome as [Hs|Hs]; [by apply (Hclass Train)|by apply (Hclass Val)]. }
    split; [done|]. destruct (Hparts Hc) as (t & v & Hperm & Hiff).
    rewrite <-Hperm, elem_of_app.
    destruct Hsome as [Hs|Hs]; [left; by apply (Hiff Train)|right; by apply (Hiff Val)].
  - intros [Hc Hi]. destruct (Hparts Hc) as (t & v & Hperm & Hiff).
    rewrite <-Hperm in Hi. apply elem_of_app in Hi as [Hi|Hi];
      [left; by apply (Hiff Train)|right; by apply (Hiff Val)].
  - intros [Ht Hv].
    destruct (Hparts (Hclass Train Ht)) as (t & v & Hperm & Hiff).
    apply (Hiff Train) in Ht. apply (Hiff Val) in Hv. simpl in Ht, Hv.
    assert (NoDup (t ++ v)) as Hnd.
    { rewrite Hperm. apply NoDup_filter, NoDup_children. }
    apply NoDup_app in Hnd as (_ & Hdisj & _). by apply (Hdisj i).
Qed.

End Facts.

(** * The claims about the model *)

Lemma trainable_set_trainable value layers :
  trainable <$> set_trainable value layers = replicate (length layers) value.
Proof.
  unfold set_trainable. induction layers as [|l layers IH]; [done|].
  simpl. by rewrite <-IH.
Qed.

Lemma length_set_trainable value layers :
  length (set_trainable value layers) = length layers.
Proof. unfold set_trainable. by rewrite length_fmap. Qed.

Lemma trainable_freeze_first n layers :
  trainable <$> freeze_first n (set_trainable true layers)
  = replicate (n `min` length layers) false
    ++ replicate (length layers - n) true.
Proof.
  unfold freeze_first. rewrite fmap_app, trainable_set_trainable.
  rewrite length_take, length_set_trainable. f_equal.
  unfold set_trainable. rewrite <-fmap_drop.
  change ((λ l, Layer (layer_name l) true) <$> drop n layers)
    with (set_trainable true (drop n layers)).
  by rewrite trainable_set_trainable, length_drop.
Qed.

(** C7.  The trainability of the backbone follows a two-phase lifecycle
    with one toggle: from the freeze of cell 12 up to cell 17 every layer
    is non-trainable, from cell 18 on exactly the first 249 layers are
    non-trainable and all the others trainable; no other cell writes a
    flag, and the two calls of [fit] train under these two settings. *)
Theorem backbone_trainability_two_phases (backbone : list layer) (k : nat) :
  trainable <$> base_model (session_after k backbone)
  = (if k <? 12 then trainable <$> backbone
     else if k <? 18 then replicate (length backbone) false
     else replicate (249 `min` length backbone) false
          ++ replicate (length backbone - 249) true)
  ∧ fits (session_after 24 backbone)
    = [replicate (length backbone) false;
       replicate (249 `min` length backbone) false
       ++ replicate (length backbone - 249) true].
Proof.
  split.
  - do 25 (destruct k as [|k];
      [cbn -[set_trainable freeze_first Nat.min Nat.sub];
       rewrite ?trainable_freeze_first, ?trainable_set_trainable,
         ?length_set_trainable; done|]).
    cbn -[set_trainable freeze_first Nat.min Nat.sub].
    by rewrite trainable_freeze_first, length_set_trainable.
  - cbn -[set_trainable freeze_first Nat.min Nat.sub].
    by rewrite trainable_freeze_first, trainable_set_trainable,
      !length_set_trainable.
Qed.

Lemma length_class_indices (m : filesystem) (directory : path) :
  length (class_indices m directory)
  = length (filter (λ subdir, is_dir_node (stat m (os_path_join directory subdir)))
              (children m directory)).
Proof.
  unfold class_indices. rewrite length_zip, length_seq, Nat.min_id.
  apply Permutation_length. by rewrite merge_sort_Permutation.
Qed.

(** C8.  The output layer is as wide as the number of classes found in
    the training data: the last layer of the model is the softmax [Dense]
    layer with [len(train_generator.class_indices)] units, one per
    sub-directory of the training directory, so the model emits one
    probability per class for an image. *)
Theorem model_output_matches_classes (m : filesystem) (directory : path)
    (backbone : list layer) :
  List.last (build_model backbone (class_indices m directory)) GlobalAveragePooling2D
  = Dense (length (class_indices m directory)) Softmax
  ∧ output_shape (build_model backbone (class_indices m directory))
    = [length (class_indices m directory)]
  ∧ length (class_indices m directory)
    = length (filter (λ subdir,
                is_dir_node (stat m (os_path_join directory subdir)))
              (children m directory)).
Proof.
  split; [done|]. split; [done|]. apply length_class_indices.
Qed.

(** * Further properties of the labels *)

Lemma elem_of_class_indices (m : filesystem) (directory : path)
    (name : string) (idx : nat) :
  (name, idx) ∈ class_indices m directory ↔
  filter (λ subdir, is_dir_node (stat m (os_path_join directory subdir)))
    (merge_sort String.le (children m directory)) !! idx = Some name.
Proof.
  unfold class_indices.
  set (classes := filter _ _). rewrite list_elem_of_lookup. split.
  - intros [k Hk]. apply lookup_zip_with_Some in Hk as (x & y & [= -> ->] & Hx & Hy).
    apply lookup_seq in Hy as [-> _]. done.
  - intros Hidx. exists idx. apply lookup_zip_with_Some. exists name, idx.
    split; [done|]. split; [done|]. apply lookup_seq. split; [done|].
    by eapply lookup_lt_Some.
Qed.

(** X13.  The labels of cell 8 fit the output layer of cell 13: every
    class of [class_indices] is a sub-directory of the directory, its
    index is its position in the list and is below the number of output
    units, and two classes have the same index only if they are the same
    class. *)
Theorem class_indices_labels (m : filesystem) (directory : path)
    (backbone : list layer) (name : string) (idx : nat) :
  (name, idx) ∈ class_indices m directory →
  stat m (directory ++ [name]) = Some Dir ∧
  class_indices m directory !! idx = Some (name, idx) ∧
  output_shape (build_model backbone (class_indices m directory))
  = [length (class_indices m directory)] ∧
  idx < length (class_indices m directory) ∧
  (∀ name' idx', (name', idx') ∈ class_indices m directory →
                 (name' = name ↔ idx' = idx)).
Proof.
  intros Hin. pose proof Hin as Hidx%elem_of_class_indices.
  assert (NoDup (filter (λ subdir,
                   is_dir_node (stat m (os_path_join directory subdir)))
                 (merge_sort String.le (children m directory)))) as Hnd.
  { apply NoDup_filter. rewrite merge_sort_Permutation. apply NoDup_children. }
  assert (class_indices m directory !! idx = Some (name, idx)) as Hlook.
  { unfold class_indices. apply lookup_zip_with_Some. exists name, idx.
    split; [done|]. split; [done|]. apply lookup_seq. split; [done|].
    by eapply lookup_lt_Some. }
  split; [|split; [done|]; split; [done|]; split].
  - apply list_elem_of_lookup_2, list_elem_of_filter in Hidx as [Hdir _].
    unfold os_path_join in Hdir.
    by destruct (stat m (directory ++ [name])) as [[|??]|].
  - by eapply lookup_lt_Some.
  - intros name' idx' Hidx'%elem_of_class_indices. split.
    + intros ->. by eapply NoDup_lookup.
    + intros ->. congruence.
Qed.

(** * The claims on the example worlds *)

(** The call of cell 4 on the example worlds. *)
Lemma ex_separated :
  separated base_dir train_dir ∧ separated base_dir val_dir ∧
  separated train_dir val_dir.
Proof. repeat split; apply (bool_decide_unpack _); vm_compute; exact I. Defined.

Lemma ex_run_returns :
  split_data base_dir train_dir val_dir default_split_ratio ex_world
  = (Returned tt,
     (split_data base_dir train_dir val_dir default_split_ratio ex_world).2).
Proof. vm_compute. reflexivity. Defined.

Lemma not_below_data (l : list (path * node)) (d : string) (k : path) :
  Forall (λ e, ∃ k', e.1 = "data"%string :: k') l → d ≠ "data"%string →
  (list_to_map l : filesystem) !! (d :: k) = None.
Proof.
  intros Hall Hd. apply not_elem_of_list_to_map_1.
  intros ([p n] & Hp & Hin)%list_elem_of_fmap. simpl in Hp. subst p.
  rewrite Forall_forall in Hall. destruct (Hall _ Hin) as [k' Hk'].
  simpl in Hk'. congruence.
Qed.

Lemma ex_entries_below_data :
  Forall (λ e : path * node, ∃ k', e.1 = "data"%string :: k') ex_entries.
Proof. unfold ex_entries. repeat constructor; simpl; eauto. Qed.

Lemma ex_fresh : fresh train_dir (fs ex_world) ∧ fresh val_dir (fs ex_world).
Proof.
  split; intros p [k ->] _; simpl;
    by apply not_below_data; [apply ex_entries_below_data|].
Defined.



(** The sizes do not depend on the generator: six samples at ratio 0.2
    split 4 to 2, where [round(6 · 0.2) = 1]; fifty split 40 to 10; and a
    single sample leaves no training set, which the library refuses, so
    that a class of one image makes the run raise. *)
Lemma split_sizes_examples :
  validate_shuffle_split 6 default_split_ratio = inr (4, 2) ∧
  py_round (inject_Z 6 * default_split_ratio) = 1%Z ∧
  validate_shuffle_split 50 default_split_ratio = inr (40, 10) ∧
  validate_shuffle_split 1 default_split_ratio = inl ValueError ∧
  (split_data base_dir train_dir val_dir default_split_ratio lonely_world).1
    = Raised ValueError.
Proof. by vm_compute. Qed.




(** C4, on the example: [train/A/e.jpg] reads back the bytes of
    [data/A/e.jpg]. *)
Lemma split_data_copies_roundtrip_witness :
  ∃ data,
    read_bytes (fs ex_world) ["data"; "A"; "e.jpg"]%string = Some data ∧
    read_bytes
      (fs (split_data base_dir train_dir val_dir default_split_ratio ex_world).2)
      ["data"; "A"; "e.jpg"]%string = Some data ∧
    read_bytes
      (fs (split_data base_dir train_dir val_dir default_split_ratio ex_world).2)
      ["train"; "A"; "e.jpg"]%string = Some data.
Proof.
  apply (split_data_copies_roundtrip base_dir train_dir val_dir
           default_split_ratio ex_world Train).
  - apply (bool_decide_unpack _). vm_compute. exact I.
  - apply ex_separated.
  - apply ex_separated.
  - apply ex_separated.
Defined.

(** C5, on the example: the stray file of the source is as it was. *)
Lemma split_data_preserves_source_witness :
  fs (split_data base_dir train_dir val_dir default_split_ratio ex_world).2
    !! ["data"; "notes.txt"]%string
  = fs ex_world !! ["data"; "notes.txt"]%string.
Proof.
  apply (split_data_preserves_source base_dir train_dir val_dir
           default_split_ratio ex_world ["data"; "notes.txt"]%string).
  - by exists ["notes.txt"%string].
  - apply ex_separated.
  - apply ex_separated.
Defined.

(** C6, on the example, where the destinations do not exist beforehand:
    four training images and two validation images are copied and
    reported. *)
Lemma split_data_reports_copies_witness :
  ∃ n_train n_val,
    stdout (split_data base_dir train_dir val_dir default_split_ratio ex_world).2
    = stdout ex_world ++
      ["Data split complete. Training images: " +:+ pretty n_train;
       "Validation images: " +:+ pretty n_val] ∧
    n_train = length (copied_into Train (new_events ex_world
      (split_data base_dir train_dir val_dir default_split_ratio ex_world).2)) ∧
    n_val = length (copied_into Val (new_events ex_world
      (split_data base_dir train_dir val_dir default_split_ratio ex_world).2)).
Proof.
  destruct (split_data_reports_copies base_dir train_dir val_dir
              default_split_ratio ex_world _ ex_run_returns)
    as (n_train & n_val & Hout & _ & _ & Hcopies).
  exists n_train, n_val. split; [exact Hout|].
  apply Hcopies; apply ex_separated || apply ex_fresh.
Defined.

(** C6 as first stated fails where an earlier run left a file in the
    train directory: the run returns after copying four files into the
    train split, and reports five training images. *)
Lemma split_data_reports_counterexample :
  (split_data base_dir train_dir val_dir default_split_ratio stale_world).1
    = Returned tt ∧
  ¬ (stdout (split_data base_dir train_dir val_dir default_split_ratio
               stale_world).2
     = stdout stale_world ++
       ["Data split complete. Training images: "
          +:+ pretty (length (copied_into Train (new_events stale_world
               (split_data base_dir train_dir val_dir default_split_ratio
                  stale_world).2)));
        "Validation images: "
          +:+ pretty (length (copied_into Val (new_events stale_world
               (split_data base_dir train_dir val_dir default_split_ratio
                  stale_world).2)))]).
Proof. split; [by vm_compute|]. vm_compute. discriminate. Qed.


(** Nothing is rolled back: the four training copies made before the
    unreadable file stay in place after the run has raised. *)
Lemma split_data_no_rollback :
  (split_data base_dir train_dir val_dir default_split_ratio locked_world).1
    = Raised PermissionError ∧
  length (copied_into Train (new_events locked_world
    (split_data base_dir train_dir val_dir default_split_ratio locked_world).2))
    = 4 ∧
  is_Some (fs (split_data base_dir train_dir val_dir default_split_ratio
                 locked_world).2 !! ["train"; "A"; "e.jpg"]%string).
Proof. split; [|split]; [by vm_compute..|]. vm_compute. eauto. Qed.


(** The example world is prepared, so its run returns. *)
Lemma ex_prepared :
  prepared base_dir train_dir val_dir default_split_ratio (fs ex_world).
Proof.
  destruct ex_separated as (Hst & Hsv & Htv). destruct ex_fresh as [Hftr Hfva].
  assert (children (fs ex_world) base_dir = ["A"; "notes.txt"]%string) as Hch.
  { by vm_compute. }
  assert (∀ d, d ≠ "data"%string → reachable [d] (fs ex_world)) as Hreach.
  { intros d Hd q Hq Hne. left. destruct q as [|x q]; [done|].
    destruct Hq as [k Hk]. injection Hk as <- _.
    by apply not_below_data; [apply ex_entries_below_data|]. }
  split; [done|]. split.
  { exists "A"%string. by rewrite Hch; split; [left|]. }
  split; [|split; [exact Hst|]; split; [exact Hsv|]; split; [exact Htv|];
           split; [exact Hftr|]; split; [exact Hfva|]; split; by apply Hreach].
  intros c. rewrite Hch.
  intros [-> | ->%list_elem_of_singleton]%elem_of_cons Hd; [|done].
  split; [by exists (4, 2)|].
  assert (images_of (fs ex_world) (base_dir ++ ["A"%string])
          = ["d.png"; "a.jpg"; "b.jpg"; "e.jpg"; "f.jpg"; "c.jpeg"]%string)
    as -> by by vm_compute.
  intros img Himg.
  repeat (apply elem_of_cons in Himg as [-> | Himg]; [by eexists|]).
  destruct (not_elem_of_nil _ Himg).
Qed.

Lemma split_data_returns_example : ∃ w', cell_4 ex_world = (Returned tt, w').
Proof. unfold cell_4. apply split_data_returns, ex_prepared. Qed.

(** The stray file under the source root and the upper-case extension are
    passed over: the run copies six files, none of them [notes.txt] or
    [x.JPG]. *)
Lemma split_data_skips_others :
  is_image "x.JPG" = false ∧ is_image "x.jpg" = true ∧
  copied_into Train (new_events ex_world
    (split_data base_dir train_dir val_dir default_split_ratio ex_world).2)
  ++ copied_into Val (new_events ex_world
    (split_data base_dir train_dir val_dir default_split_ratio ex_world).2)
  = [["data"; "A"; "e.jpg"]; ["data"; "A"; "b.jpg"]; ["data"; "A"; "a.jpg"];
     ["data"; "A"; "d.png"]; ["data"; "A"; "c.jpeg"]; ["data"; "A"; "f.jpg"]]%string.
Proof. by vm_compute. Qed.

(** InceptionV3 without its top has 311 layers: 249 stay frozen in the
    second phase and 62 are trained. *)
Lemma inception_second_phase :
  let backbone := replicate 311 (Layer "layer" true) in
  trainable <$> base_model (session_after 24 backbone)
  = replicate 249 false ++ replicate 62 true.
Proof. by vm_compute. Qed.

(** * The further properties on the example worlds *)

(** X1, on the example: the generator is as it was, and so is the stray
    file of the source. *)
Lemma split_data_never_removes_witness :
  np_random (split_data base_dir train_dir val_dir default_split_ratio ex_world).2
  = np_random ex_world ∧
  fs (split_data base_dir train_dir val_dir default_split_ratio ex_world).2
    !! ["data"; "notes.txt"]%string
  = fs ex_world !! ["data"; "notes.txt"]%string.
Proof.
  destruct (split_data_never_removes base_dir train_dir val_dir
              default_split_ratio ex_world ["data"; "notes.txt"]%string)
    as (Hgen & _ & _ & _ & Hframe).
  split; [exact Hgen|].
  apply Hframe; apply (bool_decide_unpack _); vm_compute; exact I.
Defined.




(** X5, on a source whose only class holds a single image. *)
Lemma split_data_small_class_raises_witness :
  ∃ e, (split_data base_dir train_dir val_dir default_split_ratio
          lonely_world).1 = Raised e.
Proof.
  apply (split_data_small_class_raises base_dir train_dir val_dir
           default_split_ratio lonely_world "B").
  - apply ex_separated.
  - apply ex_separated.
  - apply (bool_decide_unpack _). vm_compute. exact I.
  - vm_compute. reflexivity.
  - vm_compute. lia.
Defined.


(** X7, on the example: [train/A] lists the four training images. *)
Lemma split_data_destination_content_witness :
  children
    (fs (split_data base_dir train_dir val_dir default_split_ratio ex_world).2)
    (train_dir ++ ["A"%string])
  ≡ₚ ["e.jpg"; "b.jpg"; "a.jpg"; "d.png"]%string.
Proof.
  destruct (split_data_destination_content base_dir train_dir val_dir
              default_split_ratio ex_world _ "A"%string
              ["d.png"; "a.jpg"; "b.jpg"; "e.jpg"; "f.jpg"; "c.jpeg"]%string
              ["e.jpg"; "b.jpg"; "a.jpg"; "d.png"]%string
              ["c.jpeg"; "f.jpg"]%string
              (proj1 ex_separated) (proj1 (proj2 ex_separated))
              (proj2 (proj2 ex_separated)) (proj1 ex_fresh) (proj2 ex_fresh)
              ex_run_returns)
    as (Ht & _).
  - apply (bool_decide_unpack _). vm_compute. exact I.
  - exact Ht.
Defined.

(** X8, on the example: one class, so one output unit. *)
Lemma split_data_classes_agree_witness :
  class_indices
    (fs (split_data base_dir train_dir val_dir default_split_ratio ex_world).2)
    val_dir
  = class_indices
      (fs (split_data base_dir train_dir val_dir default_split_ratio ex_world).2)
      train_dir ∧
  output_shape (build_model [] (class_indices
    (fs (split_data base_dir train_dir val_dir default_split_ratio ex_world).2)
    train_dir))
  = [length (class_dirs (fs ex_world) base_dir)].
Proof.
  destruct (split_data_classes_agree base_dir train_dir val_dir
              default_split_ratio ex_world _ []
              (proj1 ex_separated) (proj1 (proj2 ex_separated))
              (proj2 (proj2 ex_separated)) (proj1 ex_fresh) (proj2 ex_fresh)
              ex_run_returns)
    as (_ & _ & Hidx & _ & Hshape).
  split; [exact Hidx|exact Hshape].
Defined.


(** X10, on the example with [train/.DS_Store]. *)
Lemma split_data_stray_file_raises_witness :
  ∃ e, (split_data base_dir train_dir val_dir default_split_ratio
          stray_world).1 = Raised e.
Proof.
  apply (split_data_stray_file_raises base_dir train_dir val_dir
           default_split_ratio stray_world ".DS_Store" true []).
  left. vm_compute. reflexivity.
Defined.

(** The error of the stray file is that of listing a file. *)
Lemma split_data_stray_file_error :
  (split_data base_dir train_dir val_dir default_split_ratio stray_world).1
  = Raised NotADirectoryError.
Proof. by vm_compute. Qed.

(** X11, on the examples: the class [A] is split alike in the run whose
    generator, console and train directory differ. *)
Lemma split_data_split_by_names_witness :
  ["e.jpg"; "b.jpg"; "a.jpg"; "d.png"]%string
  = ["e.jpg"; "b.jpg"; "a.jpg"; "d.png"]%string ∧
  ["c.jpeg"; "f.jpg"]%string = ["c.jpeg"; "f.jpg"]%string.
Proof.
  destruct (split_data_split_by_names base_dir train_dir val_dir
              base_dir train_dir val_dir default_split_ratio
              ex_world
              (split_data base_dir train_dir val_dir default_split_ratio
                 ex_world).2
              stale_world
              (split_data base_dir train_dir val_dir default_split_ratio
                 stale_world).2
              "A"%string "A"%string
              ["d.png"; "a.jpg"; "b.jpg"; "e.jpg"; "f.jpg"; "c.jpeg"]%string
              ["e.jpg"; "b.jpg"; "a.jpg"; "d.png"]%string
              ["c.jpeg"; "f.jpg"]%string
              ["d.png"; "a.jpg"; "b.jpg"; "e.jpg"; "f.jpg"; "c.jpeg"]%string
              ["e.jpg"; "b.jpg"; "a.jpg"; "d.png"]%string
              ["c.jpeg"; "f.jpg"]%string
              (proj1 ex_separated) (proj1 (proj2 ex_separated))
              (proj1 ex_separated) (proj1 (proj2 ex_separated)))
    as (_ & Ht & Hv).
  - vm_compute. reflexivity.
  - vm_compute. reflexivity.
  - vm_compute. reflexivity.
  - apply (bool_decide_unpack _). vm_compute. exact I.
  - apply (bool_decide_unpack _). vm_compute. exact I.
  - split; [exact Ht|exact Hv].
Defined.

(** X12, on the example: [a.jpg] is in the train directory and not in the
    validation directory; [x.JPG] is in neither. *)
Lemma split_data_each_image_once_witness :
  ¬ (is_Some (fs (split_data base_dir train_dir val_dir default_split_ratio
                    ex_world).2 !! (train_dir ++ ["A"; "a.jpg"]%string)) ∧
     is_Some (fs (split_data base_dir train_dir val_dir default_split_ratio
                    ex_world).2 !! (val_dir ++ ["A"; "a.jpg"]%string))).
Proof.
  apply (split_data_each_image_once base_dir train_dir val_dir
           default_split_ratio ex_world _ "A" "a.jpg"
           (proj1 ex_separated) (proj1 (proj2 ex_separated))
           (proj2 (proj2 ex_separated)) (proj1 ex_fresh) (proj2 ex_fresh)
           ex_run_returns).
Defined.

Lemma split_data_upper_case_left_out :
  fs (split_data base_dir train_dir val_dir default_split_ratio ex_world).2
    !! ["train"; "A"; "x.JPG"]%string = None ∧
  fs (split_data base_dir train_dir val_dir default_split_ratio ex_world).2
    !! ["val"; "A"; "x.JPG"]%string = None.
Proof. by vm_compute. Qed.

(** X13, on the example after the run: the class [A] has index 0. *)
Lemma class_indices_labels_witness :
  class_indices
    (fs (split_data base_dir train_dir val_dir default_split_ratio ex_world).2)
    train_dir !! 0
  = Some ("A"%string, 0).
Proof.
  destruct (class_indices_labels
              (fs (split_data base_dir train_dir val_dir default_split_ratio
                     ex_world).2)
              train_dir [] "A"%string 0)
    as (_ & Hlook & _).
  - apply (bool_decide_unpack _). vm_compute. exact I.
  - exact Hlook.
Defined.
